(** * Greenland viewer: a shallow embedding of [app.js] and of the offline
      combination enumerator

    The first part of the file holds the definitions: the page state of the
    viewer ([app.js]), its functions as state transformers that may throw,
    and the enumerator of contiguous state combinations.  The second part
    holds the lemmas and the verified properties. *)

From stdpp Require Import base option list numbers strings gmap sorting relations.
From Stdlib Require Import QArith.

Local Open Scope string_scope.
Local Open Scope list_scope.
Local Open Scope Z_scope.

(* ===================================================================== *)
(** * Part I.  Definitions                                                *)
(* ===================================================================== *)

(** ** JavaScript strings *)

(** Strings are sequences of 8-bit characters; state names are ASCII.
    [toLowerCase] folds the letters [A]..[Z]. *)

Definition lowerChar (c : Ascii.ascii) : Ascii.ascii :=
  let n := Ascii.N_of_ascii c in
  if ((65 <=? n)%N && (n <=? 90)%N)%bool then Ascii.ascii_of_N (n + 32) else c.

Fixpoint toLowerCase (s : string) : string :=
  match s with
  | EmptyString => EmptyString
  | String c s' => String (lowerChar c) (toLowerCase s')
  end.

Fixpoint startsWith (s q : string) : bool :=
  match q, s with
  | EmptyString, _ => true
  | String _ _, EmptyString => false
  | String a q', String b s' => bool_decide (a = b) && startsWith s' q'
  end.

(** [s.includes(q)]: [q] occurs in [s] at some position. *)
Fixpoint includes (s q : string) : bool :=
  startsWith s q ||
  match s with
  | EmptyString => false
  | String _ s' => includes s' q
  end.

(** White space removed by [trim] (tab, line feed, vertical tab, form feed,
    carriage return, space). *)
Definition isWhite (c : Ascii.ascii) : bool :=
  let n := Ascii.N_of_ascii c in
  ((9 <=? n)%N && (n <=? 13)%N || (n =? 32)%N)%bool.

Fixpoint trimStart (s : string) : string :=
  match s with
  | EmptyString => EmptyString
  | String c s' => if isWhite c then trimStart s' else s
  end.

Definition trim (s : string) : string :=
  String.rev (trimStart (String.rev (trimStart s))).

(** [xs.includes(x)] on an array of strings. *)
Definition arrayIncludes (xs : list string) (x : string) : bool :=
  bool_decide (x ∈ xs).

(** ** Data files *)

(** One record of [data/combinations.json]. *)
Record Combo := {
  states : list string;
  total_km2 : Z
}.

(** The parsed [data/combinations.json].  A property that is absent from the
    file reads as [undefined], here [None]. *)
Record CombinationsData := {
  greenland_km2 : option Z;
  combinations : option (list Combo)
}.

(** A feature of [data/us-states.json]; [name] is [properties.name]. *)
Record Feature := {
  name : string
}.

Record GeoJSON := {
  features : option (list Feature)
}.

(** What [fetch] followed by [response.json()] yields for a data file. *)
Inductive Fetched (A : Type) : Type :=
  | Missing                (* no such file: the error page is not JSON *)
  | Malformed              (* the body is not JSON *)
  | Parsed (a : A).
Arguments Missing {A}.
Arguments Malformed {A}.
Arguments Parsed {A} a.

(** ** Constants of [app.js] *)

Definition stateAreas : gmap string Z :=
  list_to_map [
    ("Alabama", 135767); ("Arizona", 295234); ("Arkansas", 137732); ("California", 423967);
    ("Colorado", 269601); ("Connecticut", 14357); ("Delaware", 6446); ("Florida", 170312);
    ("Georgia", 153910); ("Idaho", 216443); ("Illinois", 149995); ("Indiana", 94326);
    ("Iowa", 145746); ("Kansas", 213100); ("Kentucky", 104656); ("Louisiana", 135659);
    ("Maine", 91633); ("Maryland", 32131); ("Massachusetts", 27336); ("Michigan", 250487);
    ("Minnesota", 225163); ("Mississippi", 125438); ("Missouri", 180540); ("Montana", 380831);
    ("Nebraska", 200330); ("Nevada", 286380); ("New Hampshire", 24214); ("New Jersey", 22591);
    ("New Mexico", 314917); ("New York", 141297); ("North Carolina", 139391); ("North Dakota", 183108);
    ("Ohio", 116098); ("Oklahoma", 181037); ("Oregon", 254799); ("Pennsylvania", 119280);
    ("Rhode Island", 4001); ("South Carolina", 82933); ("South Dakota", 199729); ("Tennessee", 109153);
    ("Texas", 695662); ("Utah", 219882); ("Vermont", 24906); ("Virginia", 110787);
    ("Washington", 184661); ("West Virginia", 62756); ("Wisconsin", 169635); ("Wyoming", 253335)
  ].

Definition GREENLAND_AREA : Z := 2166086.

(** ** Leaflet path styles *)

(** The options of a path that [app.js] sets.  [setStyle] merges the keys it
    is given into the options of the layer; a key it is not given keeps its
    value. *)
Record Style := {
  fillColor : string;
  weight : Z;
  opacity : Q;
  color : string;
  fillOpacity : Q
}.

Record StyleUpdate := {
  u_fillColor : option string;
  u_weight : option Z;
  u_opacity : option Q;
  u_color : option string;
  u_fillOpacity : option Q
}.

Definition defaultStyle : StyleUpdate :=
  {| u_fillColor := Some "#1a4670"; u_weight := Some 1; u_opacity := Some (1 # 1)%Q;
     u_color := Some "#0f3460"; u_fillOpacity := Some (6 # 10)%Q |}.

Definition hoverStyle : StyleUpdate :=
  {| u_fillColor := Some "#4cc9f0"; u_weight := Some 2; u_opacity := None;
     u_color := Some "#4cc9f0"; u_fillOpacity := Some (3 # 10)%Q |}.

Definition selectedStyle : StyleUpdate :=
  {| u_fillColor := Some "#e94560"; u_weight := Some 2; u_opacity := Some (1 # 1)%Q;
     u_color := Some "#ff6b6b"; u_fillOpacity := Some (7 # 10)%Q |}.

(** The literal style of [highlightFilteredStates]. *)
Definition filterStyle : StyleUpdate :=
  {| u_fillColor := Some "#4cc9f0"; u_weight := Some 2; u_opacity := None;
     u_color := Some "#4cc9f0"; u_fillOpacity := Some (4 # 10)%Q |}.

(** Leaflet's own defaults for a path, before any style is applied. *)
Definition pathDefaults : Style :=
  {| fillColor := "#3388ff"; weight := 3; opacity := (1 # 1)%Q;
     color := "#3388ff"; fillOpacity := (2 # 10)%Q |}.

Definition mergeStyle (u : StyleUpdate) (s : Style) : Style :=
  {| fillColor := default (fillColor s) (u_fillColor u);
     weight := default (weight s) (u_weight u);
     opacity := default (opacity s) (u_opacity u);
     color := default (color s) (u_color u);
     fillOpacity := default (fillOpacity s) (u_fillOpacity u) |}.

(** A layer of [statesLayer]: one per feature. *)
Record Layer := {
  feature : Feature;
  options : Style
}.

Definition setStyle (u : StyleUpdate) (l : Layer) : Layer :=
  {| feature := feature l; options := mergeStyle u (options l) |}.

(** What the map shows. *)
Inductive MapView :=
  | InitialView                       (* center [39.8, -98.5], zoom 4 *)
  | AllStates                         (* fitBounds(statesLayer.getBounds()) *)
  | FitLayers (ids : list nat).       (* fitBounds of a group of layers *)

(** The Leaflet map: its view and the paint order of the layers of
    [statesLayer] (back to front, by position in [statesLayer]). *)
Record LMap := {
  view : MapView;
  paintOrder : list nat
}.

Definition bringToFront (i : nat) (order : list nat) : list nat :=
  filter (λ j, j ≠ i) order ++ [i].

(** ** The document *)

(** An item of the combination list, as [createComboItem] builds it. *)
Record Row := {
  row_index : nat;            (* dataset.index *)
  row_selected : bool;        (* class "selected" *)
  row_count : nat;            (* "<n> states" *)
  row_area : Z;               (* total_km2 *)
  row_states : list string    (* states.join(', ') *)
}.

(** The text of [.list-header span]: "<count> combinations" followed, when
    the filter is not empty, by " containing <names>". *)
Record Header := {
  header_count : nat;
  header_containing : list string
}.

(** [#filter-total]: the running total and, when positive, what remains. *)
Record FilterTotal := {
  ft_hidden : bool;
  ft_content : option (Z * option Z)
}.

Record DropItem := {
  item_text : string;
  item_highlighted : bool
}.

(** [#search-dropdown]. *)
Record Dropdown := {
  dd_items : list DropItem;
  dd_hidden : bool
}.

(** [#selected-info] with [#selected-states] and [#selected-area]. *)
Record SelectedInfo := {
  si_hidden : bool;
  si_states : option (list string);
  si_area : option Z
}.

Inductive Tab := ListTab | MapTab.

Record Layout := {
  innerWidth : Z;
  mapContainerHidden : bool;
  sidebarHidden : bool;
  activeTab : Tab
}.

(** [#greenland-area] and [#combo-count]; [None] is the static markup. *)
Record Stats := {
  greenlandAreaText : option Z;
  comboCountText : option nat
}.

(** What a pending [setTimeout] will do. *)
Inductive Task :=
  | FitSelected (ids : list nat)
  | HideDropdown.

Record Page := {
  layout : Layout;
  stats : Stats;
  combinationsList : list Row;        (* children of #combinations *)
  listHeader : option Header;         (* None: the static markup *)
  selectedFilters : list string;      (* tags of #selected-filters *)
  filterTotal : FilterTotal;
  stateSearch : string;               (* value of #state-search *)
  searchDropdown : Dropdown;
  selectedInfo : SelectedInfo;
  listenersInstalled : bool;          (* setupEventListeners has run *)
  timers : list (nat * Task)
}.

(** ** The global state of [app.js] *)

Record Viewer := {
  map : option LMap;
  statesLayer : option (list Layer);
  statesGeoJSON : option GeoJSON;
  combinationsData : option CombinationsData;
  selectedComboIndex : option nat;           (* null or an index *)
  selectedStates : list string;
  allStateNames : list string;
  highlightedIndex : Z;
  page : Page
}.

(** *** Field updates *)

Definition set_layout (v : Layout) (p : Page) : Page :=
  {| layout := v; stats := stats p; combinationsList := combinationsList p;
     listHeader := listHeader p; selectedFilters := selectedFilters p;
     filterTotal := filterTotal p; stateSearch := stateSearch p;
     searchDropdown := searchDropdown p; selectedInfo := selectedInfo p;
     listenersInstalled := listenersInstalled p; timers := timers p |}.

Definition set_stats (v : Stats) (p : Page) : Page :=
  {| layout := layout p; stats := v; combinationsList := combinationsList p;
     listHeader := listHeader p; selectedFilters := selectedFilters p;
     filterTotal := filterTotal p; stateSearch := stateSearch p;
     searchDropdown := searchDropdown p; selectedInfo := selectedInfo p;
     listenersInstalled := listenersInstalled p; timers := timers p |}.

Definition set_combinationsList (v : list Row) (p : Page) : Page :=
  {| layout := layout p; stats := stats p; combinationsList := v;
     listHeader := listHeader p; selectedFilters := selectedFilters p;
     filterTotal := filterTotal p; stateSearch := stateSearch p;
     searchDropdown := searchDropdown p; selectedInfo := selectedInfo p;
     listenersInstalled := listenersInstalled p; timers := timers p |}.

Definition set_listHeader (v : option Header) (p : Page) : Page :=
  {| layout := layout p; stats := stats p; combinationsList := combinationsList p;
     listHeader := v; selectedFilters := selectedFilters p;
     filterTotal := filterTotal p; stateSearch := stateSearch p;
     searchDropdown := searchDropdown p; selectedInfo := selectedInfo p;
     listenersInstalled := listenersInstalled p; timers := timers p |}.

Definition set_selectedFilters (v : list string) (p : Page) : Page :=
  {| layout := layout p; stats := stats p; combinationsList := combinationsList p;
     listHeader := listHeader p; selectedFilters := v;
     filterTotal := filterTotal p; stateSearch := stateSearch p;
     searchDropdown := searchDropdown p; selectedInfo := selectedInfo p;
     listenersInstalled := listenersInstalled p; timers := timers p |}.

Definition set_filterTotal (v : FilterTotal) (p : Page) : Page :=
  {| layout := layout p; stats := stats p; combinationsList := combinationsList p;
     listHeader := listHeader p; selectedFilters := selectedFilters p;
     filterTotal := v; stateSearch := stateSearch p;
     searchDropdown := searchDropdown p; selectedInfo := selectedInfo p;
     listenersInstalled := listenersInstalled p; timers := timers p |}.

Definition set_stateSearch (v : string) (p : Page) : Page :=
  {| layout := layout p; stats := stats p; combinationsList := combinationsList p;
     listHeader := listHeader p; selectedFilters := selectedFilters p;
     filterTotal := filterTotal p; stateSearch := v;
     searchDropdown := searchDropdown p; selectedInfo := selectedInfo p;
     listenersInstalled := listenersInstalled p; timers := timers p |}.

Definition set_searchDropdown (v : Dropdown) (p : Page) : Page :=
  {| layout := layout p; stats := stats p; combinationsList := combinationsList p;
     listHeader := listHeader p; selectedFilters := selectedFilters p;
     filterTotal := filterTotal p; stateSearch := stateSearch p;
     searchDropdown := v; selectedInfo := selectedInfo p;
     listenersInstalled := listenersInstalled p; timers := timers p |}.

Definition set_selectedInfo (v : SelectedInfo) (p : Page) : Page :=
  {| layout := layout p; stats := stats p; combinationsList := combinationsList p;
     listHeader := listHeader p; selectedFilters := selectedFilters p;
     filterTotal := filterTotal p; stateSearch := stateSearch p;
     searchDropdown := searchDropdown p; selectedInfo := v;
     listenersInstalled := listenersInstalled p; timers := timers p |}.

Definition set_listenersInstalled (v : bool) (p : Page) : Page :=
  {| layout := layout p; stats := stats p; combinationsList := combinationsList p;
     listHeader := listHeader p; selectedFilters := selectedFilters p;
     filterTotal := filterTotal p; stateSearch := stateSearch p;
     searchDropdown := searchDropdown p; selectedInfo := selectedInfo p;
     listenersInstalled := v; timers := timers p |}.

Definition set_timers (v : list (nat * Task)) (p : Page) : Page :=
  {| layout := layout p; stats := stats p; combinationsList := combinationsList p;
     listHeader := listHeader p; selectedFilters := selectedFilters p;
     filterTotal := filterTotal p; stateSearch := stateSearch p;
     searchDropdown := searchDropdown p; selectedInfo := selectedInfo p;
     listenersInstalled := listenersInstalled p; timers := v |}.

Definition set_map (v : option LMap) (st : Viewer) : Viewer :=
  {| map := v; statesLayer := statesLayer st; statesGeoJSON := statesGeoJSON st;
     combinationsData := combinationsData st; selectedComboIndex := selectedComboIndex st;
     selectedStates := selectedStates st; allStateNames := allStateNames st;
     highlightedIndex := highlightedIndex st; page := page st |}.

Definition set_statesLayer (v : option (list Layer)) (st : Viewer) : Viewer :=
  {| map := map st; statesLayer := v; statesGeoJSON := statesGeoJSON st;
     combinationsData := combinationsData st; selectedComboIndex := selectedComboIndex st;
     selectedStates := selectedStates st; allStateNames := allStateNames st;
     highlightedIndex := highlightedIndex st; page := page st |}.

Definition set_statesGeoJSON (v : option GeoJSON) (st : Viewer) : Viewer :=
  {| map := map st; statesLayer := statesLayer st; statesGeoJSON := v;
     combinationsData := combinationsData st; selectedComboIndex := selectedComboIndex st;
     selectedStates := selectedStates st; allStateNames := allStateNames st;
     highlightedIndex := highlightedIndex st; page := page st |}.

Definition set_combinationsData (v : option CombinationsData) (st : Viewer) : Viewer :=
  {| map := map st; statesLayer := statesLayer st; statesGeoJSON := statesGeoJSON st;
     combinationsData := v; selectedComboIndex := selectedComboIndex st;
     selectedStates := selectedStates st; allStateNames := allStateNames st;
     highlightedIndex := highlightedIndex st; page := page st |}.

Definition set_selectedComboIndex (v : option nat) (st : Viewer) : Viewer :=
  {| map := map st; statesLayer := statesLayer st; statesGeoJSON := statesGeoJSON st;
     combinationsData := combinationsData st; selectedComboIndex := v;
     selectedStates := selectedStates st; allStateNames := allStateNames st;
     highlightedIndex := highlightedIndex st; page := page st |}.

Definition set_selectedStates (v : list string) (st : Viewer) : Viewer :=
  {| map := map st; statesLayer := statesLayer st; statesGeoJSON := statesGeoJSON st;
     combinationsData := combinationsData st; selectedComboIndex := selectedComboIndex st;
     selectedStates := v; allStateNames := allStateNames st;
     highlightedIndex := highlightedIndex st; page := page st |}.

Definition set_allStateNames (v : list string) (st : Viewer) : Viewer :=
  {| map := map st; statesLayer := statesLayer st; statesGeoJSON := statesGeoJSON st;
     combinationsData := combinationsData st; selectedComboIndex := selectedComboIndex st;
     selectedStates := selectedStates st; allStateNames := v;
     highlightedIndex := highlightedIndex st; page := page st |}.

Definition set_highlightedIndex (v : Z) (st : Viewer) : Viewer :=
  {| map := map st; statesLayer := statesLayer st; statesGeoJSON := statesGeoJSON st;
     combinationsData := combinationsData st; selectedComboIndex := selectedComboIndex st;
     selectedStates := selectedStates st; allStateNames := allStateNames st;
     highlightedIndex := v; page := page st |}.

Definition set_page (v : Page) (st : Viewer) : Viewer :=
  {| map := map st; statesLayer := statesLayer st; statesGeoJSON := statesGeoJSON st;
     combinationsData := combinationsData st; selectedComboIndex := selectedComboIndex st;
     selectedStates := selectedStates st; allStateNames := allStateNames st;
     highlightedIndex := highlightedIndex st; page := v |}.

(** An update of the document. *)
Definition on_page (f : Page → Page) (st : Viewer) : Viewer :=
  set_page (f (page st)) st.

(** ** Statements that read and write the state and may throw *)

Inductive JsError := TypeError | SyntaxError.

Inductive completion (A : Type) : Type :=
  | Normal (a : A)
  | Throw (e : JsError).
Arguments Normal {A} a.
Arguments Throw {A} e.

Definition JS (A : Type) : Type := Viewer → completion A * Viewer.

#[global] Instance JS_ret : MRet JS := λ A a st, (Normal a, st).

#[global] Instance JS_bind : MBind JS := λ A B f m st,
  match m st with
  | (Normal a, st') => f a st'
  | (Throw e, st') => (Throw e, st')
  end.

Definition gets {A} (f : Viewer → A) : JS A := λ st, (Normal (f st), st).

Definition modify (f : Viewer → Viewer) : JS unit := λ st, (Normal tt, f st).

Definition throw {A} (e : JsError) : JS A := λ st, (Throw e, st).

(** Reading a property of [o]: a [TypeError] when [o] is [undefined]. *)
Definition defined {A} (o : option A) : JS A :=
  match o with
  | Some a => mret a
  | None => throw TypeError
  end.

Definition when (b : bool) (m : JS unit) : JS unit :=
  if b then m else mret tt.

(** [xs.forEach((x, idx) => f idx x)], counting from [i]. *)
Fixpoint forEachFrom {A} (i : nat) (xs : list A) (f : nat → A → JS unit) : JS unit :=
  match xs with
  | [] => mret tt
  | x :: xs' => f i x ;; forEachFrom (S i) xs' f
  end.

Definition forEach {A} (xs : list A) (f : nat → A → JS unit) : JS unit :=
  forEachFrom 0 xs f.

(** The state a statement leaves, and how it completes. *)
Definition exec {A} (m : JS A) (st : Viewer) : Viewer := (m st).2.
Definition outcome {A} (m : JS A) (st : Viewer) : completion A := (m st).1.

(** ** Leaflet operations used by [app.js] *)

(** [layer.setStyle(u)] on the layer at position [i] of [statesLayer]. *)
Definition layerSetStyle (i : nat) (u : StyleUpdate) : JS unit :=
  modify (λ st, set_statesLayer (alter (setStyle u) i <$> statesLayer st) st).

(** [layer.bringToFront()]. *)
Definition layerBringToFront (i : nat) : JS unit :=
  modify (λ st,
    set_map ((λ m, {| view := view m; paintOrder := bringToFront i (paintOrder m) |})
               <$> map st) st).

(** [statesLayer.eachLayer(f)]. *)
Definition eachLayer (f : nat → Layer → JS unit) : JS unit :=
  o ← gets statesLayer;
  layers ← defined o;
  forEach layers f.

(** [map.fitBounds(...)]. *)
Definition mapFitBounds (v : MapView) : JS unit :=
  o ← gets map;
  m ← defined o;
  modify (set_map (Some {| view := v; paintOrder := paintOrder m |})).

(** The event target of a layer event: the layer at position [t]. *)
Definition layerAt (t : nat) : JS Layer :=
  o ← gets statesLayer;
  layers ← defined o;
  defined (layers !! t).

(** ** Loading *)

Definition initMap : JS unit :=
  modify (set_map (Some {| view := InitialView; paintOrder := [] |})).

(** [await response.json()]. *)
Definition json {A} (file : Fetched A) : JS A :=
  match file with
  | Parsed a => mret a
  | Missing | Malformed => throw SyntaxError
  end.

Definition loadStatesGeoJSON (file : Fetched GeoJSON) : JS unit :=
  geo ← json file;
  modify (set_statesGeoJSON (Some geo)).

Definition loadCombinations (file : Fetched CombinationsData) : JS unit :=
  data ← json file;
  modify (set_combinationsData (Some data)) ;;
  area ← defined (greenland_km2 data);
  modify (on_page (λ p,
    set_stats {| greenlandAreaText := Some area;
                 comboCountText := comboCountText (stats p) |} p)) ;;
  cs ← defined (combinations data);
  modify (on_page (λ p,
    set_stats {| greenlandAreaText := greenlandAreaText (stats p);
                 comboCountText := Some (length cs) |} p)).

(** [await Promise.all([a, b])]: both loads run to their end, each keeping
    what it wrote; the wait throws when one of them threw.  The two loads
    write different variables and elements, so the order in which they
    progress does not show in the state. *)
Definition promiseAll (a b : JS unit) : JS unit := λ st,
  let '(ra, st1) := a st in
  let '(rb, st2) := b st1 in
  (match ra with
   | Throw e => Throw e
   | Normal _ => rb
   end, st2).

Definition isLower48 (f : Feature) : Prop :=
  name f ≠ "Alaska" ∧ name f ≠ "Hawaii" ∧
  name f ≠ "Puerto Rico" ∧ name f ≠ "District of Columbia".

#[global] Instance isLower48_dec f : Decision (isLower48 f).
Proof. unfold isLower48. apply _. Defined.

Definition newLayer (f : Feature) : Layer :=
  {| feature := f; options := mergeStyle defaultStyle pathDefaults |}.

Definition renderStates : JS unit :=
  o ← gets statesGeoJSON;
  geo ← defined o;
  fs ← defined (features geo);
  let lower48 := filter isLower48 fs in
  modify (set_allStateNames (merge_sort String.le (name <$> lower48))) ;;
  om ← gets map;
  m ← defined om;
  modify (set_map (Some {| view := view m; paintOrder := seq 0 (length lower48) |})) ;;
  modify (set_statesLayer (Some (newLayer <$> lower48))) ;;
  mapFitBounds AllStates.

(** ** Hovering *)

(** [selectedComboIndex !== null] and the selected combination includes
    [stateName]. *)
Definition inSelectedCombination (stateName : string) : JS bool :=
  idx ← gets selectedComboIndex;
  match idx with
  | None => mret false
  | Some i =>
      od ← gets combinationsData;
      data ← defined od;
      cs ← defined (combinations data);
      combo ← defined (cs !! i);
      mret (arrayIncludes (states combo) stateName)
  end.

Definition handleStateHover (t : nat) : JS unit :=
  layer ← layerAt t;
  let stateName := name (feature layer) in
  skip ← inSelectedCombination stateName;
  if skip : bool then mret tt
  else layerSetStyle t hoverStyle ;; layerBringToFront t.

Definition handleStateOut (t : nat) : JS unit :=
  layer ← layerAt t;
  let stateName := name (feature layer) in
  skip ← inSelectedCombination stateName;
  if skip : bool then mret tt
  else layerSetStyle t defaultStyle.

(** ** The combination list *)

(** The callback of [combinationsData.combinations.filter]. *)
Definition passesFilter (selectedStates : list string) (combo : Combo) : bool :=
  if bool_decide (length selectedStates = 0%nat) then true
  else forallb (λ state, arrayIncludes (states combo) state) selectedStates.

(** The array with the position of each element.  The objects of a parsed
    JSON array are pairwise distinct, so [indexOf(combo)] is the position
    [combo] was taken from. *)
Definition indexed {A} (xs : list A) : list (nat * A) :=
  imap (λ i x, (i, x)) xs.

Definition filterCombinations (selectedStates : list string) (cs : list Combo)
  : list (nat * Combo) :=
  filter (λ ic : nat * Combo, passesFilter selectedStates ic.2) (indexed cs).

Definition createComboItem (selected : option nat) (combo : Combo) (idx : nat) : Row :=
  {| row_index := idx;
     row_selected := bool_decide (selected = Some idx);
     row_count := length (states combo);
     row_area := total_km2 combo;
     row_states := states combo |}.

Definition appendRow (r : Row) : JS unit :=
  modify (on_page (λ p, set_combinationsList (combinationsList p ++ [r]) p)).

Definition renderCombinations : JS unit :=
  modify (on_page (set_combinationsList [])) ;;
  od ← gets combinationsData;
  data ← defined od;
  cs ← defined (combinations data);
  sel ← gets selectedStates;
  let filtered := filterCombinations sel cs in
  let toRender := take (Nat.min (length filtered) 500) filtered in
  forEach toRender (λ _ ic,
    selected ← gets selectedComboIndex;
    appendRow (createComboItem selected ic.2 ic.1)) ;;
  modify (on_page (set_listHeader
    (Some {| header_count := length filtered; header_containing := sel |}))).

(** The rows and the header [renderCombinations] writes when the data are
    loaded (see [renderCombinations_run]). *)
Definition renderedRows (st : Viewer) (cs : list Combo) : list Row :=
  (λ ic : nat * Combo, createComboItem (selectedComboIndex st) ic.2 ic.1)
    <$> take 500 (filterCombinations (selectedStates st) cs).

Definition renderedHeader (st : Viewer) (cs : list Combo) : Header :=
  {| header_count := length (filterCombinations (selectedStates st) cs);
     header_containing := selectedStates st |}.

(** ** Selecting a combination *)

(** [document.querySelector('.combo-item[data-index="i"]')], then adding or
    removing the class "selected": the first item with that index. *)
Fixpoint markFirst (i : nat) (b : bool) (rows : list Row) : list Row :=
  match rows with
  | [] => []
  | r :: rs =>
      if bool_decide (row_index r = i)
      then {| row_index := row_index r; row_selected := b; row_count := row_count r;
              row_area := row_area r; row_states := row_states r |} :: rs
      else r :: markFirst i b rs
  end.

Definition markRow (i : nat) (b : bool) : JS unit :=
  modify (on_page (λ p, set_combinationsList (markFirst i b (combinationsList p)) p)).

Definition resetMapStyles : JS unit :=
  eachLayer (λ i _, layerSetStyle i defaultStyle).

(** The click handler of a tab of [#mobile-tabs]. *)
Definition onTabClick (v : Tab) : JS unit :=
  modify (on_page (λ p,
    set_layout
      match v with
      | ListTab => {| innerWidth := innerWidth (layout p); mapContainerHidden := true;
                      sidebarHidden := false; activeTab := ListTab |}
      | MapTab => {| innerWidth := innerWidth (layout p); mapContainerHidden := false;
                     sidebarHidden := true; activeTab := MapTab |}
      end p)).

(** [tab.click()]: runs the handler once [setupEventListeners] installed it. *)
Definition clickTab (v : Tab) : JS unit :=
  installed ← gets (λ st, listenersInstalled (page st));
  when installed (onTabClick v).

Definition setTimeout (task : Task) (delay : nat) : JS unit :=
  modify (on_page (λ p, set_timers (timers p ++ [(delay, task)]) p)).

(** The positions of the layers whose state belongs to [combo]. *)
Definition layersOf (combo : Combo) (layers : list Layer) : list nat :=
  (filter (λ il : nat * Layer, arrayIncludes (states combo) (name (feature il.2)))
          (indexed layers)).*1.

Definition selectCombination (idx : nat) : JS unit :=
  prev ← gets selectedComboIndex;
  match prev with
  | Some p => resetMapStyles ;; markRow p false
  | None => mret tt
  end ;;
  modify (set_selectedComboIndex (Some idx)) ;;
  od ← gets combinationsData;
  data ← defined od;
  cs ← defined (combinations data);
  let combo := cs !! idx in
  eachLayer (λ i layer,
    c ← defined combo;
    when (arrayIncludes (states c) (name (feature layer)))
      (layerSetStyle i selectedStyle ;; layerBringToFront i)) ;;
  markRow idx true ;;
  modify (on_page (λ p,
    set_selectedInfo {| si_hidden := false; si_states := si_states (selectedInfo p);
                        si_area := si_area (selectedInfo p) |} p)) ;;
  c ← defined combo;
  modify (on_page (λ p,
    set_selectedInfo {| si_hidden := si_hidden (selectedInfo p);
                        si_states := Some (states c);
                        si_area := Some (total_km2 c) |} p)) ;;
  ol ← gets statesLayer;
  layers ← defined ol;
  let selectedLayers := layersOf c layers in
  when (bool_decide (0 < length selectedLayers)%nat)
    (w ← gets (λ st, innerWidth (layout (page st)));
     when (bool_decide (w ≤ 768)%Z) (clickTab MapTab) ;;
     setTimeout (FitSelected selectedLayers) 100).

(** ** The state filter *)

Definition on_dropdown (f : Dropdown → Dropdown) : JS unit :=
  modify (on_page (λ p, set_searchDropdown (f (searchDropdown p)) p)).

Definition hideDropdown : JS unit :=
  on_dropdown (λ d, {| dd_items := dd_items d; dd_hidden := true |}) ;;
  modify (set_highlightedIndex (-1)).

Definition updateFilterTotal : JS unit :=
  sel ← gets selectedStates;
  if bool_decide (length sel = 0%nat) then
    modify (on_page (λ p,
      set_filterTotal {| ft_hidden := true; ft_content := ft_content (filterTotal p) |} p))
  else
    let total := foldl (λ sum state, sum + default 0 (stateAreas !! state)) 0 sel in
    let remaining := GREENLAND_AREA - total in
    modify (on_page (set_filterTotal
      {| ft_hidden := false;
         ft_content := Some (total, if bool_decide (0 < remaining) then Some remaining
                                    else None) |})).

Definition renderFilterTags : JS unit :=
  modify (on_page (set_selectedFilters [])) ;;
  sel ← gets selectedStates;
  forEach sel (λ _ state,
    modify (on_page (λ p, set_selectedFilters (selectedFilters p ++ [state]) p))) ;;
  updateFilterTotal.

Definition highlightFilteredStates : JS unit :=
  eachLayer (λ i layer,
    sel ← gets selectedStates;
    if arrayIncludes sel (name (feature layer)) then layerSetStyle i filterStyle
    else
      idx ← gets selectedComboIndex;
      when (bool_decide (idx = None)) (layerSetStyle i defaultStyle)).

Definition clearSelection : JS unit :=
  prev ← gets selectedComboIndex;
  match prev with
  | Some p => markRow p false
  | None => mret tt
  end ;;
  modify (set_selectedComboIndex None) ;;
  resetMapStyles ;;
  highlightFilteredStates ;;
  modify (on_page (λ p,
    set_selectedInfo {| si_hidden := true; si_states := si_states (selectedInfo p);
                        si_area := si_area (selectedInfo p) |} p)) ;;
  mapFitBounds AllStates.

Definition addStateFilter (stateName : string) : JS unit :=
  sel ← gets selectedStates;
  when (negb (arrayIncludes sel stateName))
    (modify (set_selectedStates (sel ++ [stateName])) ;;
     renderFilterTags ;;
     renderCombinations ;;
     highlightFilteredStates) ;;
  modify (on_page (set_stateSearch "")) ;;
  hideDropdown.

Definition removeStateFilter (stateName : string) : JS unit :=
  modify (λ st, set_selectedStates (filter (λ s, s ≠ stateName) (selectedStates st)) st) ;;
  renderFilterTags ;;
  renderCombinations ;;
  highlightFilteredStates.

Definition handleStateClick (t : nat) : JS unit :=
  layer ← layerAt t;
  addStateFilter (name (feature layer)).

(** ** The typeahead *)

(** The callback of [allStateNames.filter] in [showDropdown]. *)
Definition matchesQuery (query : string) (selectedStates : list string)
    (stateName : string) : bool :=
  includes (toLowerCase stateName) (toLowerCase query) &&
  negb (arrayIncludes selectedStates stateName).

Definition showDropdown (query : string) : JS unit :=
  names ← gets allStateNames;
  sel ← gets selectedStates;
  let matches := filter (λ n : string, matchesQuery query sel n) names in
  if bool_decide (length matches = 0%nat) || bool_decide (query = "") then hideDropdown
  else
    on_dropdown (λ d, {| dd_items := []; dd_hidden := dd_hidden d |}) ;;
    forEach (take 8 matches) (λ idx n,
      hi ← gets highlightedIndex;
      on_dropdown (λ d,
        {| dd_items := dd_items d ++
                       [{| item_text := n;
                           item_highlighted := bool_decide (Z.of_nat idx = hi) |}];
           dd_hidden := dd_hidden d |})) ;;
    on_dropdown (λ d, {| dd_items := dd_items d; dd_hidden := false |}).

Definition updateDropdownHighlight : JS unit :=
  hi ← gets highlightedIndex;
  on_dropdown (λ d,
    {| dd_items := imap (λ idx it,
                      {| item_text := item_text it;
                         item_highlighted := bool_decide (Z.of_nat idx = hi) |})
                     (dd_items d);
       dd_hidden := dd_hidden d |}).

(** The items [showDropdown] appends for the names [xs], the first one at
    position [i], when the highlight is at [hi] (see [showDropdown_run]). *)
Fixpoint dropItemsFrom (hi : Z) (i : nat) (xs : list string) : list DropItem :=
  match xs with
  | [] => []
  | n :: xs' =>
      {| item_text := n; item_highlighted := bool_decide (Z.of_nat i = hi) |}
        :: dropItemsFrom hi (S i) xs'
  end.

(** The names [showDropdown] keeps for a query. *)
Definition queryMatches (query : string) (st : Viewer) : list string :=
  filter (λ n : string, matchesQuery query (selectedStates st) n) (allStateNames st).

(** [e] is the name of a feature of the geometry file other than Alaska,
    Hawaii, Puerto Rico and the District of Columbia. *)
Definition lower48Name (geo : Fetched GeoJSON) (e : string) : Prop :=
  ∃ g fs f, geo = Parsed g ∧ features g = Some fs ∧ f ∈ fs ∧ name f = e ∧ isLower48 f.

(** The entries a user sees in the dropdown. *)
Definition displayedEntries (st : Viewer) : list string :=
  if dd_hidden (searchDropdown (page st)) then []
  else item_text <$> dd_items (searchDropdown (page st)).

(** ** Event listeners *)

Inductive Key := ArrowDown | ArrowUp | Enter | Escape | OtherKey.

(** The [input] listener of [#state-search]; [text] is the new value. *)
Definition onSearchInput (text : string) : JS unit :=
  modify (on_page (set_stateSearch text)) ;;
  let query := trim text in
  modify (set_highlightedIndex (-1)) ;;
  showDropdown query.

(** The [mouseenter] listener of the dropdown item at position [idx]. *)
Definition onItemEnter (idx : nat) : JS unit :=
  modify (set_highlightedIndex (Z.of_nat idx)) ;;
  updateDropdownHighlight.

Definition onSearchKeyDown (key : Key) : JS unit :=
  items ← gets (λ st, dd_items (searchDropdown (page st)));
  if bool_decide (length items = 0%nat) then mret tt
  else
    hi ← gets highlightedIndex;
    match key with
    | ArrowDown =>
        modify (set_highlightedIndex (Z.min (hi + 1) (Z.of_nat (length items) - 1))) ;;
        updateDropdownHighlight
    | ArrowUp =>
        modify (set_highlightedIndex (Z.max (hi - 1) 0)) ;;
        updateDropdownHighlight
    | Enter =>
        when (bool_decide (0 ≤ hi)%Z)
          (item ← defined (items !! Z.to_nat hi);
           addStateFilter (item_text item))
    | Escape => hideDropdown
    | OtherKey => mret tt
    end.

Definition onSearchBlur : JS unit :=
  setTimeout HideDropdown 150.

Definition onSearchFocus : JS unit :=
  v ← gets (λ st, stateSearch (page st));
  when (negb (bool_decide (trim v = ""))) (showDropdown (trim v)).

(** The [click] listener of [#clear-search]. *)
Definition onClearSearch : JS unit :=
  modify (on_page (set_stateSearch "")) ;;
  modify (set_selectedStates []) ;;
  renderFilterTags ;;
  renderCombinations ;;
  highlightFilteredStates.

Definition setupEventListeners : JS unit :=
  modify (on_page (set_listenersInstalled true)).

(** What a timer does when it fires. *)
Definition runTask (task : Task) : JS unit :=
  match task with
  | FitSelected ids => mapFitBounds (FitLayers ids)
  | HideDropdown => hideDropdown
  end.

(** ** Start *)

Definition init (geo : Fetched GeoJSON) (combos : Fetched CombinationsData) : JS unit :=
  w ← gets (λ st, innerWidth (layout (page st)));
  when (bool_decide (w ≤ 768)%Z)
    (modify (on_page (λ p,
       set_layout {| innerWidth := innerWidth (layout p); mapContainerHidden := true;
                     sidebarHidden := sidebarHidden (layout p);
                     activeTab := activeTab (layout p) |} p))) ;;
  initMap ;;
  promiseAll (loadStatesGeoJSON geo) (loadCombinations combos) ;;
  renderStates ;;
  renderCombinations ;;
  setupEventListeners.

(** A data file that is missing, is not JSON, or lacks a property the
    viewer reads at the top level. *)
Definition unusableGeo (file : Fetched GeoJSON) : Prop :=
  match file with
  | Parsed geo => features geo = None
  | Missing | Malformed => True
  end.

Definition unusableCombinations (file : Fetched CombinationsData) : Prop :=
  match file with
  | Parsed data => greenland_km2 data = None ∨ combinations data = None
  | Missing | Malformed => True
  end.

(** [init] ends normally on an empty list under a header. *)
Definition degradesGracefully (geo : Fetched GeoJSON)
    (combos : Fetched CombinationsData) (st : Viewer) : Prop :=
  outcome (init geo combos) st = Normal tt ∧
  combinationsList (page (exec (init geo combos) st)) = [] ∧
  is_Some (listHeader (page (exec (init geo combos) st))).

(** ** What a user, the map or a timer can ask of the loaded page *)

Inductive Intent :=
  | Render
  | AddFilter (stateName : string)
  | RemoveFilter (stateName : string)
  | ClearFilters
  | Typeahead (text : string)
  | Select (idx : nat)
  | ClearSelection
  | MouseOver (t : nat)
  | MouseOut (t : nat)
  | Click (t : nat)
  | KeyDown (key : Key)
  | Focus
  | Blur
  | ItemEnter (idx : nat)
  | TabClick (v : Tab)
  | Timer (k : nat).

Definition perform (i : Intent) : JS unit :=
  match i with
  | Render => renderCombinations
  | AddFilter s => addStateFilter s
  | RemoveFilter s => removeStateFilter s
  | ClearFilters => onClearSearch
  | Typeahead text => onSearchInput text
  | Select idx => selectCombination idx
  | ClearSelection => clearSelection
  | MouseOver t => handleStateHover t
  | MouseOut t => handleStateOut t
  | Click t => handleStateClick t
  | KeyDown key => onSearchKeyDown key
  | Focus => onSearchFocus
  | Blur => onSearchBlur
  | ItemEnter idx => onItemEnter idx
  | TabClick v => onTabClick v
  | Timer k =>
      pending ← gets (λ st, timers (page st));
      match pending !! k with
      | None => mret tt
      | Some (_, task) =>
          modify (on_page (set_timers (delete k pending))) ;;
          runTask task
      end
  end.

(** A listener that throws ends there; the page keeps the state it reached. *)
Definition step (st : Viewer) (i : Intent) : Viewer := exec (perform i) st.

Definition run (intents : list Intent) (st : Viewer) : Viewer := foldl step st intents.

(** The page before [init]: the globals as declared, the document as the
    static markup [p] gives it. *)
Definition initialViewer (p : Page) : Viewer :=
  {| map := None; statesLayer := None; statesGeoJSON := None;
     combinationsData := None; selectedComboIndex := None;
     selectedStates := []; allStateNames := []; highlightedIndex := -1;
     page := p |}.

(* ===================================================================== *)
(** ** The combination enumerator                                         *)
(* ===================================================================== *)

(** The enumerator is the offline script [comparison.py], which is not among
    the sources of the viewer.  The definitions of this section follow the
    contract and the algorithm of the specification: a search over connected
    subsets that grows a set by one adjacent state at a time, prunes by the
    running area sum and by size, identifies sets by their sorted sequence
    of names, keeps the sets within tolerance of the target and returns them
    tagged with their total area, ordered by area and then by names. *)

(** Modelled from the spec: the search configuration (target area,
    tolerance, minimum and maximum group size) of the missing enumerator. *)
Record Config := {
  target : Z;
  tolerance : Z;
  min_size : nat;
  max_size : nat
}.

(** Modelled from the spec: a combination of the missing enumerator's
    output, tagged with its member list and its total area. *)
Record Combination := {
  members : list string;
  total_area : Z
}.

(** Modelled from the spec: the adjacency graph of the missing enumerator,
    a mapping from a state to its neighbours. *)
Definition neighbours (g : gmap string (list string)) (s : string) : list string :=
  default [] (g !! s).

Definition adjacent (g : gmap string (list string)) (u v : string) : Prop :=
  v ∈ neighbours g u.

(** The invariant of the data model: adjacency is symmetric. *)
Definition symmetric (g : gmap string (list string)) : Prop :=
  ∀ u v, adjacent g u v → adjacent g v u.

(** The same, as a check over the entries of the graph. *)
Definition symmetric_entries (g : gmap string (list string)) : Prop :=
  map_Forall (λ u ns, Forall (λ v, u ∈ neighbours g v) ns) g.

#[global] Instance symmetric_entries_dec g : Decision (symmetric_entries g).
Proof. unfold symmetric_entries. apply _. Defined.

(** The subgraph induced on [S] and its connectedness: [S] is not empty and
    any two members are joined by a path that stays in [S]. *)
Definition induced (g : gmap string (list string)) (S : list string)
    (u v : string) : Prop :=
  u ∈ S ∧ v ∈ S ∧ adjacent g u v.

Definition connected (g : gmap string (list string)) (S : list string) : Prop :=
  S ≠ [] ∧ ∀ u v, u ∈ S → v ∈ S → rtc (induced g S) u v.

(** Modelled from the spec: the validation of the missing enumerator, which
    aborts before searching when a state lacks a (positive) area or names a
    neighbour without adjacency data. *)
Definition well_formed (g : gmap string (list string)) (areas : gmap string Z) : Prop :=
  map_Forall (λ s ns,
    from_option (λ a, 0 < a) False (areas !! s) ∧
    Forall (λ n, is_Some (g !! n)) ns) g.

#[global] Instance well_formed_dec g areas : Decision (well_formed g areas).
Proof.
  unfold well_formed. apply map_Forall_dec. intros s ns.
  apply and_dec; [destruct (areas !! s); simpl; apply _ | apply _].
Defined.

(** Modelled from the spec: the area sum of a set of states, over integers. *)
Definition sum_areas (areas : gmap string Z) (S : list string) : Z :=
  foldr (λ s acc, default 0 (areas !! s) + acc) 0 S.

(** Modelled from the spec: the canonical form of a set of states, its
    sorted sequence of names. *)
Definition canonical (S : list string) : list string :=
  merge_sort String.le S.

(** Modelled from the spec: the growth step of the missing enumerator, every
    set obtained from [S] by adding a state that is adjacent to a member and
    not yet included. *)
Definition expand (g : gmap string (list string)) (S : list string)
  : list (list string) :=
  m ← S;
  n ← neighbours g m;
  if decide (n ∈ S) then [] else [canonical (n :: S)].

(** Modelled from the spec: the pruning bound of the missing enumerator, a
    branch is abandoned once its running sum exceeds target plus tolerance. *)
Definition within_bound (areas : gmap string Z) (cfg : Config) (S : list string) : Prop :=
  sum_areas areas S ≤ target cfg + tolerance cfg.

#[global] Instance within_bound_dec areas cfg S : Decision (within_bound areas cfg S).
Proof. unfold within_bound. apply _. Defined.

Definition nodes (g : gmap string (list string)) : list string :=
  (map_to_list g).*1.

(** Modelled from the spec: the seeds of the missing enumerator, each state
    as a set of its own. *)
Definition seeds (g : gmap string (list string)) (areas : gmap string Z)
    (cfg : Config) : list (list string) :=
  filter (within_bound areas cfg) ((λ s, [s]) <$> canonical (nodes g)).

(** Modelled from the spec: one level of the breadth-first expansion of the
    missing enumerator, with pruning and deduplication by canonical form. *)
Definition grow (g : gmap string (list string)) (areas : gmap string Z)
    (cfg : Config) (frontier : list (list string)) : list (list string) :=
  remove_dups (filter (within_bound areas cfg) (frontier ≫= expand g)).

(** Modelled from the spec: the bounded search of the missing enumerator;
    [fuel] is the number of sizes still to visit. *)
Fixpoint search (g : gmap string (list string)) (areas : gmap string Z)
    (cfg : Config) (fuel : nat) (frontier : list (list string))
  : list (list string) :=
  match fuel with
  | O => []
  | S k => frontier ++ search g areas cfg k (grow g areas cfg frontier)
  end.

(** Modelled from the spec: the retention test of the missing enumerator. *)
Definition retained (areas : gmap string Z) (cfg : Config) (S : list string) : Prop :=
  (min_size cfg ≤ length S)%nat ∧
  Z.abs (sum_areas areas S - target cfg) ≤ tolerance cfg.

#[global] Instance retained_dec areas cfg S : Decision (retained areas cfg S).
Proof. unfold retained. apply _. Defined.

Definition tag (areas : gmap string Z) (S : list string) : Combination :=
  {| members := S; total_area := sum_areas areas S |}.

(** Lexicographic order on sequences of names. *)
Fixpoint lex_le (xs ys : list string) : Prop :=
  match xs, ys with
  | [], _ => True
  | _ :: _, [] => False
  | x :: xs', y :: ys' => if decide (x = y) then lex_le xs' ys' else String.le x y
  end.

#[global] Instance lex_le_dec : RelDecision lex_le.
Proof.
  intros xs. induction xs as [|x xs IH]; intros [|y ys]; simpl; try apply _.
  destruct (decide (x = y)); [apply IH | apply _].
Defined.

(** Modelled from the spec: the output order of the missing enumerator, by
    total area and then by the sequence of names. *)
Definition combination_le (c1 c2 : Combination) : Prop :=
  total_area c1 < total_area c2 ∨
  (total_area c1 = total_area c2 ∧ lex_le (members c1) (members c2)).

#[global] Instance combination_le_dec : RelDecision combination_le.
Proof. intros c1 c2. unfold combination_le. apply _. Defined.

(** Modelled from the spec: the missing enumerator.  [None] is the fatal
    configuration error; an empty list is a valid result. *)
Definition enumerate (g : gmap string (list string)) (areas : gmap string Z)
    (cfg : Config) : option (list Combination) :=
  if decide (well_formed g areas) then
    Some (merge_sort combination_le
            (tag areas <$> filter (retained areas cfg)
                             (search g areas cfg (max_size cfg) (seeds g areas cfg))))
  else None.

(** The example of the specification: the path A-B-C-D. *)
Definition pathGraph : gmap string (list string) :=
  list_to_map [("A", ["B"]); ("B", ["A"; "C"]); ("C", ["B"; "D"]); ("D", ["C"])].

Definition pathAreas : gmap string Z :=
  list_to_map [("A", 10); ("B", 20); ("C", 15); ("D", 5)].

Definition pathConfig (lo hi : nat) : Config :=
  {| target := 35; tolerance := 0; min_size := lo; max_size := hi |}.

(* ===================================================================== *)
(** ** Sample data                                                        *)
(* ===================================================================== *)

(** A page as the static markup would give it, for a window [w] wide. *)
Definition emptyPage (w : Z) : Page :=
  {| layout := {| innerWidth := w; mapContainerHidden := false;
                  sidebarHidden := false; activeTab := ListTab |};
     stats := {| greenlandAreaText := None; comboCountText := None |};
     combinationsList := [];
     listHeader := None;
     selectedFilters := [];
     filterTotal := {| ft_hidden := true; ft_content := None |};
     stateSearch := "";
     searchDropdown := {| dd_items := []; dd_hidden := true |};
     selectedInfo := {| si_hidden := true; si_states := None; si_area := None |};
     listenersInstalled := false;
     timers := [] |}.

Definition sampleGeo : GeoJSON :=
  {| features := Some [ {| name := "Alaska" |}; {| name := "Texas" |};
                        {| name := "Oklahoma" |}; {| name := "New Mexico" |};
                        {| name := "Kansas" |}; {| name := "Hawaii" |};
                        {| name := "Colorado" |} ] |}.

Definition sampleData : CombinationsData :=
  {| greenland_km2 := Some GREENLAND_AREA;
     combinations := Some [
       {| states := ["Texas"; "Oklahoma"; "New Mexico"]; total_km2 := 1191616 |};
       {| states := ["Kansas"; "Oklahoma"; "Colorado"]; total_km2 := 663738 |};
       {| states := ["Texas"; "New Mexico"]; total_km2 := 1010579 |} ] |}.

(** The page after a successful start on the sample files. *)
Definition sampleViewer : Viewer :=
  exec (init (Parsed sampleGeo) (Parsed sampleData)) (initialViewer (emptyPage 1024)).

(** The sample page with its third combination selected. *)
Definition selectedViewer : Viewer :=
  exec (selectCombination 2) sampleViewer.

(** A data file with 501 records. *)
Definition largeData : CombinationsData :=
  {| greenland_km2 := Some GREENLAND_AREA;
     combinations := Some (replicate 501 {| states := ["Texas"]; total_km2 := 695662 |}) |}.

Definition largeViewer : Viewer :=
  exec (init (Parsed sampleGeo) (Parsed largeData)) (initialViewer (emptyPage 1024)).

(** ** Frames *)

(** [m] leaves the part [proj] of the state as it found it, however it
    completes. *)
Definition preserves {A B} (proj : Viewer → A) (m : JS B) : Prop :=
  ∀ st, proj (m st).2 = proj st.

(** [m] never throws. *)
Definition total {B} (m : JS B) : Prop :=
  ∀ st, ∃ b, (m st).1 = Normal b.

(** The list pane shows the combinations [cs] under the filter of [st]: the
    rows are the first 500 that pass, the header counts all that pass. *)
Definition listShows (cs : list Combo) (st : Viewer) : Prop :=
  combinationsList (page st) = renderedRows st cs ∧
  listHeader (page st) = Some (renderedHeader st cs).

(** What [listShows] reads of the state. *)
Definition listView (st : Viewer)
  : list Row * option Header * list string * option nat :=
  (combinationsList (page st), listHeader (page st), selectedStates st,
   selectedComboIndex st).

(** [m] keeps the filter list free of duplicates. *)
Definition keepsDistinct {B} (m : JS B) : Prop :=
  ∀ st, NoDup (selectedStates st) → NoDup (selectedStates (m st).2).

(** A part of the state that no update of the document, of the map, of the
    layers, of the selection or of the highlight touches. *)
Class Untouched {A} (proj : Viewer → A) : Prop := {
  untouched_page : ∀ v st, proj (set_page v st) = proj st;
  untouched_map : ∀ v st, proj (set_map v st) = proj st;
  untouched_statesLayer : ∀ v st, proj (set_statesLayer v st) = proj st;
  untouched_selectedComboIndex : ∀ v st, proj (set_selectedComboIndex v st) = proj st;
  untouched_highlightedIndex : ∀ v st, proj (set_highlightedIndex v st) = proj st
}.

(** A part of the state that, moreover, no update of the filter list
    touches. *)
Class UntouchedByFilter {A} (proj : Viewer → A) : Prop := {
  untouched_base :: Untouched proj;
  untouched_selectedStates_set : ∀ v st, proj (set_selectedStates v st) = proj st
}.

(** ** A started page *)

(** The data are loaded with the combinations [cs], and the map and its
    state layers exist. *)
Definition loaded (cs : list Combo) (st : Viewer) : Prop :=
  (∃ data, combinationsData st = Some data ∧ combinations data = Some cs) ∧
  is_Some (statesLayer st) ∧ is_Some (map st).

(** The features drawn on the map, in the order of their layers. *)
Definition layerFeatures (st : Viewer) : option (list Feature) :=
  (λ layers : list Layer, feature <$> layers) <$> statesLayer st.

(** Whether the map exists. *)
Definition mapExists (st : Viewer) : bool :=
  match map st with Some _ => true | None => false end.

(** [m] keeps the property [P] of the state, however it completes. *)
Definition keeps {B} (P : Viewer → Prop) (m : JS B) : Prop :=
  ∀ st, P st → P (m st).2.

(** Everything of the state but the map and its layers. *)
Definition offMap (st : Viewer) :=
  (statesGeoJSON st, combinationsData st, selectedComboIndex st,
   selectedStates st, allStateNames st, highlightedIndex st, page st).

(** What the callbacks of [eachLayer] do to a layer: [selectCombination]
    for the combination [c], [highlightFilteredStates] for the filter list
    [sel] and the selection [idx]. *)
Definition selectLayer (c : Combo) (l : Layer) : Layer :=
  if arrayIncludes (states c) (name (feature l)) then setStyle selectedStyle l else l.

Definition highlightLayer (sel : list string) (idx : option nat) (l : Layer) : Layer :=
  if arrayIncludes sel (name (feature l)) then setStyle filterStyle l
  else match idx with
       | None => setStyle defaultStyle l
       | Some _ => l
       end.

(** The rows of the list once the mark of the previous selection [prev] is
    removed and the row of [idx] is marked, as [selectCombination] does. *)
Definition remarkRows (prev : option nat) (idx : nat) (rows : list Row) : list Row :=
  markFirst idx true
    match prev with
    | Some p => markFirst p false rows
    | None => rows
    end.

(** The layers [selectCombination] starts from: reset to the default style
    when there was a selection. *)
Definition resetLayers (prev : option nat) (ls : list Layer) : list Layer :=
  match prev with
  | Some _ => setStyle defaultStyle <$> ls
  | None => ls
  end.

(** The layout after [selectCombination] found [n] layers to fit. *)
Definition layoutAfterSelect (n : nat) (p : Page) : Layout :=
  if bool_decide (0 < n)%nat && bool_decide (innerWidth (layout p) ≤ 768)
     && listenersInstalled p
  then {| innerWidth := innerWidth (layout p); mapContainerHidden := false;
          sidebarHidden := true; activeTab := MapTab |}
  else layout p.

(** The operations that neither render the list nor change the filter or
    the selection. *)
Definition besideList (i : Intent) : bool :=
  match i with
  | Typeahead _ | MouseOver _ | MouseOut _ | Focus | Blur | ItemEnter _
  | TabClick _ | Timer _ => true
  | _ => false
  end.

(** ** The filter pane *)

(** The sum [updateFilterTotal] computes: the area of each state of the
    table, 0 for any other name. *)
Definition areaOf (sel : list string) : Z :=
  foldl (λ sum state, sum + default 0 (stateAreas !! state)) 0 sel.

(** What the filter pane shows and the filter list it should show. *)
Definition filterView (st : Viewer) : list string * FilterTotal * list string :=
  (selectedFilters (page st), filterTotal (page st), selectedStates st).

(** The filter pane shows the filter list: one tag per state of the list,
    in order; the total is hidden when the list is empty and otherwise shows
    the summed area and, when positive, what remains of Greenland's area. *)
Definition filterPaneShows (st : Viewer) : Prop :=
  selectedFilters (page st) = selectedStates st ∧
  match selectedStates st with
  | [] => ft_hidden (filterTotal (page st)) = true
  | _ :: _ =>
      filterTotal (page st) =
        {| ft_hidden := false;
           ft_content :=
             Some (areaOf (selectedStates st),
                   if bool_decide (0 < GREENLAND_AREA - areaOf (selectedStates st))
                   then Some (GREENLAND_AREA - areaOf (selectedStates st))
                   else None) |}
  end.

(** The operations that do not change the filter. *)
Definition besideFilter (i : Intent) : bool :=
  match i with
  | AddFilter _ | RemoveFilter _ | ClearFilters | Click _ | KeyDown _ => false
  | _ => true
  end.

(** ** The highlight of the dropdown *)

(** The items with the class "highlighted" on the item at position [hi] and
    on no other, as [updateDropdownHighlight] leaves them. *)
Definition highlightAt (hi : Z) (items : list DropItem) : list DropItem :=
  imap (λ idx it,
          {| item_text := item_text it;
             item_highlighted := bool_decide (Z.of_nat idx = hi) |}) items.

(** ** The earlier revision of the list filter *)

(** In the earlier revision of [app.js] the filter of the list is one search
    string, the global [searchFilter], set to the lower-cased text of the
    search field by its [input] listener and to the lower-cased name of a
    state by a click on the map.  This is the callback of its
    [combinations.filter]. *)
Definition passesSearch (searchFilter : string) (combo : Combo) : bool :=
  if bool_decide (searchFilter = "") then true
  else existsb (λ s, includes (toLowerCase s) searchFilter) (states combo).

Definition filterBySearch (searchFilter : string) (cs : list Combo)
  : list (nat * Combo) :=
  filter (λ ic : nat * Combo, passesSearch searchFilter ic.2) (indexed cs).

(** The header of that revision: "<count> combinations", followed, when the
    search string is not empty, by " matching" and the string. *)
Record SearchHeader := {
  sh_count : nat;
  sh_matching : option string
}.

(** What [renderCombinations] of that revision puts in the list and in the
    header, from the globals it reads; [None] when it throws because the
    data or its [combinations] are undefined. *)
Definition renderCombinationsBySearch (data : option CombinationsData)
    (selected : option nat) (searchFilter : string)
  : option (list Row * SearchHeader) :=
  d ← data;
  cs ← combinations d;
  let filtered := filterBySearch searchFilter cs in
  let toRender := take (Nat.min (length filtered) 500) filtered in
  Some ((λ ic : nat * Combo, createComboItem selected ic.2 ic.1) <$> toRender,
        {| sh_count := length filtered;
           sh_matching := if bool_decide (searchFilter = "") then None
                          else Some searchFilter |}).

(** The search string after a click on the state [stateName], and after the
    text [text] is typed. *)
Definition searchFilterOfClick (stateName : string) : string := toLowerCase stateName.
Definition searchFilterOfInput (text : string) : string := toLowerCase text.

(* ===================================================================== *)
(** * Part II.  Properties                                                *)
(* ===================================================================== *)

(** ** Running statements *)

Lemma bind_run {A B} (m : JS A) (f : A → JS B) (st : Viewer) :
  (m ≫= f) st =
  match m st with
  | (Normal a, st') => f a st'
  | (Throw e, st') => (Throw e, st')
  end.
Proof. reflexivity. Qed.

Lemma bind_normal {A B} (m : JS A) (f : A → JS B) st a st1 :
  m st = (Normal a, st1) → (m ≫= f) st = f a st1.
Proof. intros Hm. by rewrite bind_run, Hm. Qed.

Lemma bind_throw {A B} (m : JS A) (f : A → JS B) st e st1 :
  m st = (Throw e, st1) → (m ≫= f) st = (Throw e, st1).
Proof. intros Hm. by rewrite bind_run, Hm. Qed.

Lemma forEachFrom_app {A} (xs ys : list A) (f : nat → A → JS unit) i st :
  forEachFrom i (xs ++ ys) f st =
  (forEachFrom i xs f ;; forEachFrom (i + length xs) ys f) st.
Proof.
  revert i st. induction xs as [|x xs IH]; intros i st; simpl.
  - rewrite bind_run. simpl. by rewrite Nat.add_0_r.
  - rewrite !bind_run. destruct (f i x st) as [[[]|e] st1]; [|done].
    rewrite IH, bind_run. by replace (S i + length xs)%nat with (i + S (length xs))%nat by lia.
Qed.

(** Runs the statement of the goal up to the next read that is not known. *)
Ltac js_run := simpl; repeat (rewrite bind_run; simpl).

(** ** Frame rules *)

Section preserves.
Context {A : Type} (proj : Viewer → A).

Lemma preserves_ret {B} (b : B) : preserves proj (mret b).
Proof. by intros st. Qed.

Lemma preserves_bind {B C} (m : JS B) (f : B → JS C) :
  preserves proj m → (∀ b, preserves proj (f b)) → preserves proj (m ≫= f).
Proof.
  intros Hm Hf st. rewrite bind_run. specialize (Hm st).
  destruct (m st) as [[b|e] st1]; simpl in *; [|done].
  by rewrite Hf.
Qed.

Lemma preserves_gets {B} (f : Viewer → B) : preserves proj (gets f).
Proof. by intros st. Qed.

Lemma preserves_throw {B} e : preserves proj (throw (A:=B) e).
Proof. by intros st. Qed.

Lemma preserves_defined {B} (o : option B) : preserves proj (defined o).
Proof. destruct o; [apply preserves_ret | apply preserves_throw]. Qed.

Lemma preserves_json {B} (file : Fetched B) : preserves proj (json file).
Proof. destruct file; first [apply preserves_ret | apply preserves_throw]. Qed.

Lemma preserves_when b m : preserves proj m → preserves proj (when b m).
Proof. destruct b; [done | intros _; apply preserves_ret]. Qed.

Lemma preserves_modify f :
  (∀ st, proj (f st) = proj st) → preserves proj (modify f).
Proof. intros Hf st. apply Hf. Qed.

Lemma preserves_forEachFrom {B} (xs : list B) f i :
  (∀ j x, preserves proj (f j x)) → preserves proj (forEachFrom i xs f).
Proof.
  intros Hf. revert i. induction xs as [|x xs IH]; intros i; simpl.
  - apply preserves_ret.
  - apply preserves_bind; [apply Hf | intros _; apply IH].
Qed.

Lemma preserves_forEach {B} (xs : list B) f :
  (∀ j x, preserves proj (f j x)) → preserves proj (forEach xs f).
Proof. apply preserves_forEachFrom. Qed.

Lemma preserves_promiseAll a b :
  preserves proj a → preserves proj b → preserves proj (promiseAll a b).
Proof.
  intros Ha Hb st. unfold promiseAll. specialize (Ha st).
  destruct (a st) as [ra st1]. specialize (Hb st1).
  destruct (b st1) as [rb st2]. simpl in *. congruence.
Qed.

Lemma preserves_run :
  (∀ i, preserves proj (perform i)) →
  ∀ intents st, proj (run intents st) = proj st.
Proof.
  intros H intents. induction intents as [|i intents IH]; intros st; [done|].
  unfold run in *. simpl. rewrite IH. apply H.
Qed.
End preserves.

(** One step of a frame proof: by the shape of the statement. *)
Ltac frame_step :=
  lazymatch goal with
  | |- preserves _ (mbind _ _) => apply preserves_bind; [|intros ?]
  | |- preserves _ (mret _) => apply preserves_ret
  | |- preserves _ (gets _) => apply preserves_gets
  | |- preserves _ (throw _) => apply preserves_throw
  | |- preserves _ (defined _) => apply preserves_defined
  | |- preserves _ (json _) => apply preserves_json
  | |- preserves _ (when _ _) => apply preserves_when
  | |- preserves _ (forEach _ _) => apply preserves_forEach; intros ? ?
  | |- preserves _ (promiseAll _ _) => apply preserves_promiseAll
  | |- preserves _ (modify _) =>
      apply preserves_modify; intros ?; unfold on_page;
      first [ apply untouched_page | apply untouched_map
            | apply untouched_statesLayer | apply untouched_selectedComboIndex
            | apply untouched_highlightedIndex
            | apply untouched_selectedStates_set | reflexivity ]
  | |- preserves _ (match ?x with _ => _ end) => destruct x
  | |- preserves _ (let _ := _ in _) => cbv zeta
  end.

Create HintDb frame.

Ltac frame := repeat first [ frame_step | solve [ eauto with frame typeclass_instances ] ].

Section untouched.
Context {A : Type} (proj : Viewer → A) `{!Untouched proj}.

Lemma preserves_layerSetStyle i u : preserves proj (layerSetStyle i u).
Proof. unfold layerSetStyle. frame. Qed.

Lemma preserves_layerBringToFront i : preserves proj (layerBringToFront i).
Proof. unfold layerBringToFront. frame. Qed.

Lemma preserves_eachLayer f :
  (∀ i layer, preserves proj (f i layer)) → preserves proj (eachLayer f).
Proof. intros Hf. unfold eachLayer. frame. Qed.

Lemma preserves_mapFitBounds v : preserves proj (mapFitBounds v).
Proof. unfold mapFitBounds. frame. Qed.

Lemma preserves_layerAt t : preserves proj (layerAt t).
Proof. unfold layerAt. frame. Qed.

Lemma preserves_markRow i b : preserves proj (markRow i b).
Proof. unfold markRow. frame. Qed.

Lemma preserves_setTimeout task delay : preserves proj (setTimeout task delay).
Proof. unfold setTimeout. frame. Qed.

Lemma preserves_on_dropdown f : preserves proj (on_dropdown f).
Proof. unfold on_dropdown. frame. Qed.

Lemma preserves_onTabClick v : preserves proj (onTabClick v).
Proof. unfold onTabClick. frame. Qed.

Lemma preserves_appendRow r : preserves proj (appendRow r).
Proof. unfold appendRow. frame. Qed.

Hint Resolve preserves_layerSetStyle preserves_layerBringToFront
  preserves_mapFitBounds preserves_layerAt preserves_markRow
  preserves_setTimeout preserves_on_dropdown preserves_onTabClick
  preserves_appendRow : frame.

Lemma preserves_resetMapStyles : preserves proj resetMapStyles.
Proof. unfold resetMapStyles. apply preserves_eachLayer. intros. frame. Qed.

Lemma preserves_clickTab v : preserves proj (clickTab v).
Proof. unfold clickTab. frame. Qed.

Lemma preserves_hideDropdown : preserves proj hideDropdown.
Proof. unfold hideDropdown. frame. Qed.

Lemma preserves_updateFilterTotal : preserves proj updateFilterTotal.
Proof. unfold updateFilterTotal. frame. Qed.

Hint Resolve preserves_resetMapStyles preserves_clickTab preserves_hideDropdown
  preserves_updateFilterTotal : frame.

Lemma preserves_renderFilterTags : preserves proj renderFilterTags.
Proof. unfold renderFilterTags. frame. Qed.

Lemma preserves_highlightFilteredStates : preserves proj highlightFilteredStates.
Proof. unfold highlightFilteredStates. apply preserves_eachLayer. intros. frame. Qed.

Lemma preserves_renderCombinations : preserves proj renderCombinations.
Proof. unfold renderCombinations. frame. Qed.

Lemma preserves_inSelectedCombination s : preserves proj (inSelectedCombination s).
Proof. unfold inSelectedCombination. frame. Qed.

Hint Resolve preserves_renderFilterTags preserves_highlightFilteredStates
  preserves_renderCombinations preserves_inSelectedCombination : frame.

Lemma preserves_handleStateHover t : preserves proj (handleStateHover t).
Proof. unfold handleStateHover. frame. Qed.

Lemma preserves_handleStateOut t : preserves proj (handleStateOut t).
Proof. unfold handleStateOut. frame. Qed.

Lemma preserves_showDropdown q : preserves proj (showDropdown q).
Proof. unfold showDropdown. frame. Qed.

Lemma preserves_updateDropdownHighlight : preserves proj updateDropdownHighlight.
Proof. unfold updateDropdownHighlight. frame. Qed.

Lemma preserves_clearSelection : preserves proj clearSelection.
Proof. unfold clearSelection. frame. Qed.

Lemma preserves_selectCombination idx : preserves proj (selectCombination idx).
Proof.
  unfold selectCombination. frame.
  apply preserves_eachLayer. intros. frame.
Qed.

Lemma preserves_runTask task : preserves proj (runTask task).
Proof. unfold runTask. frame. Qed.
End untouched.

#[global] Instance untouched_combinationsData : Untouched combinationsData.
Proof. by split. Qed.

#[global] Instance untouched_selectedStates : Untouched selectedStates.
Proof. by split. Qed.

#[global] Instance untouched_allStateNames : Untouched allStateNames.
Proof. by split. Qed.

#[local] Hint Resolve preserves_layerSetStyle preserves_layerBringToFront
  preserves_mapFitBounds preserves_layerAt preserves_markRow
  preserves_setTimeout preserves_on_dropdown preserves_onTabClick
  preserves_appendRow preserves_resetMapStyles preserves_clickTab
  preserves_hideDropdown preserves_updateFilterTotal
  preserves_renderFilterTags preserves_highlightFilteredStates
  preserves_renderCombinations preserves_inSelectedCombination
  preserves_handleStateHover preserves_handleStateOut preserves_showDropdown
  preserves_updateDropdownHighlight preserves_clearSelection
  preserves_selectCombination preserves_runTask : frame.

(** ** The loaded combinations are never written *)

Section untouched_by_filter.
Context {A : Type} (proj : Viewer → A) `{!UntouchedByFilter proj}.

Lemma preserves_addStateFilter s : preserves proj (addStateFilter s).
Proof. unfold addStateFilter. frame. Qed.

Lemma preserves_removeStateFilter s : preserves proj (removeStateFilter s).
Proof. unfold removeStateFilter. frame. Qed.

Lemma preserves_onClearSearch : preserves proj onClearSearch.
Proof. unfold onClearSearch. frame. Qed.

Hint Resolve preserves_addStateFilter preserves_removeStateFilter
  preserves_onClearSearch : frame.

Lemma preserves_perform i : preserves proj (perform i).
Proof.
  destruct i; simpl;
    unfold onSearchInput, handleStateClick, onSearchKeyDown, onSearchFocus,
      onSearchBlur, onItemEnter;
    frame.
Qed.
End untouched_by_filter.

#[global] Instance filter_keeps_combinationsData : UntouchedByFilter combinationsData.
Proof. by split; [apply _|]. Qed.

#[global] Instance filter_keeps_allStateNames : UntouchedByFilter allStateNames.
Proof. by split; [apply _|]. Qed.

(** C4.  No operation of the viewer (rendering the list, adding or removing
    a filter state, clearing the filter, a typeahead query, selecting a
    combination, clearing the selection, hovering, keys, tabs, timers)
    writes the loaded combination data: after one operation, and after any
    sequence of operations, [combinationsData] (the array, and with it the
    states and total_km2 of each combination) is what it was, whether the
    operation completes or throws. *)
Theorem viewer_keeps_combinations :
  ∀ (st : Viewer),
    (∀ i : Intent, combinationsData (exec (perform i) st) = combinationsData st) ∧
    (∀ intents : list Intent, combinationsData (run intents st) = combinationsData st).
Proof.
  intros st. split.
  - intros i. apply (preserves_perform combinationsData).
  - intros intents. apply preserves_run. apply (preserves_perform combinationsData).
Qed.

(** ** The filter list *)

Lemma proj_bind_preserved {A B C} (proj : Viewer → A) (m : JS B) (f : B → JS C) st :
  (∀ b, preserves proj (f b)) → proj ((m ≫= f) st).2 = proj (m st).2.
Proof.
  intros Hf. rewrite bind_run. destruct (m st) as [[b|e] st1]; simpl; [|done].
  apply Hf.
Qed.

Lemma addStateFilter_selectedStates s st :
  selectedStates (exec (addStateFilter s) st) =
  if bool_decide (s ∈ selectedStates st) then selectedStates st
  else selectedStates st ++ [s].
Proof.
  unfold exec, addStateFilter. rewrite bind_run. simpl.
  rewrite proj_bind_preserved by (intros; frame).
  unfold arrayIncludes. destruct (bool_decide (s ∈ selectedStates st)); simpl.
  - done.
  - rewrite proj_bind_preserved by (intros; frame). done.
Qed.

Lemma removeStateFilter_selectedStates s st :
  selectedStates (exec (removeStateFilter s) st) =
  filter (λ x, x ≠ s) (selectedStates st).
Proof.
  unfold exec, removeStateFilter.
  rewrite proj_bind_preserved by (intros; frame). done.
Qed.

Lemma onClearSearch_selectedStates st :
  selectedStates (exec onClearSearch st) = [].
Proof.
  unfold exec, onClearSearch. rewrite bind_run. simpl.
  rewrite proj_bind_preserved by (intros; frame). done.
Qed.

Lemma keepsDistinct_preserves {B} (m : JS B) :
  preserves selectedStates m → keepsDistinct m.
Proof. intros Hm st Hst. by rewrite Hm. Qed.

Lemma keepsDistinct_bind {B C} (m : JS B) (f : B → JS C) :
  keepsDistinct m → (∀ b, keepsDistinct (f b)) → keepsDistinct (m ≫= f).
Proof.
  intros Hm Hf st Hst. rewrite bind_run. specialize (Hm st Hst).
  destruct (m st) as [[b|e] st1]; simpl in *; [|done].
  by apply Hf.
Qed.

Lemma keepsDistinct_addStateFilter s : keepsDistinct (addStateFilter s).
Proof.
  intros st Hst. fold (exec (addStateFilter s) st).
  rewrite addStateFilter_selectedStates. case_bool_decide as Hin; [done|].
  apply NoDup_app. split_and!; [done | | apply NoDup_singleton].
  intros x Hx ->%list_elem_of_singleton. done.
Qed.

Lemma keepsDistinct_removeStateFilter s : keepsDistinct (removeStateFilter s).
Proof.
  intros st Hst. fold (exec (removeStateFilter s) st).
  rewrite removeStateFilter_selectedStates. by apply NoDup_filter.
Qed.

Lemma keepsDistinct_onClearSearch : keepsDistinct onClearSearch.
Proof.
  intros st _. fold (exec onClearSearch st).
  rewrite onClearSearch_selectedStates. apply NoDup_nil_2.
Qed.

Lemma keepsDistinct_perform i : keepsDistinct (perform i).
Proof.
  destruct i; simpl;
    lazymatch goal with
    | |- keepsDistinct (addStateFilter _) => apply keepsDistinct_addStateFilter
    | |- keepsDistinct (removeStateFilter _) => apply keepsDistinct_removeStateFilter
    | |- keepsDistinct onClearSearch => apply keepsDistinct_onClearSearch
    | |- keepsDistinct (handleStateClick _) => idtac
    | |- keepsDistinct (onSearchKeyDown _) => idtac
    | |- _ =>
        apply keepsDistinct_preserves;
        unfold onSearchInput, onSearchFocus, onSearchBlur, onItemEnter; frame
    end.
  - (* a click on the map *)
    unfold handleStateClick. apply keepsDistinct_bind.
    + apply keepsDistinct_preserves. frame.
    + intros layer. apply keepsDistinct_addStateFilter.
  - (* a key in the search field *)
    unfold onSearchKeyDown. apply keepsDistinct_bind.
    { apply keepsDistinct_preserves. frame. }
    intros items. case_bool_decide; [apply keepsDistinct_preserves; frame|].
    apply keepsDistinct_bind; [apply keepsDistinct_preserves; frame|].
    intros hi. destruct key; try (apply keepsDistinct_preserves; frame; fail).
    unfold when. case_bool_decide; [|apply keepsDistinct_preserves; frame].
    apply keepsDistinct_bind; [apply keepsDistinct_preserves; frame|].
    intros item. apply keepsDistinct_addStateFilter.
Qed.

Lemma run_snoc intents i st : run (intents ++ [i]) st = step (run intents st) i.
Proof. unfold run. by rewrite foldl_app. Qed.

(** C8.  The filter list holds no state twice.  [addStateFilter] leaves the
    list as it is when the state is already in it and appends it otherwise;
    after [removeStateFilter] the state no longer occurs in the list, and
    the other entries are kept in order; clearing empties the list; hence
    every sequence of operations of the viewer keeps a duplicate-free list
    duplicate-free, and started from the empty list yields one. *)
Theorem selectedStates_distinct :
  (∀ s st, selectedStates (exec (addStateFilter s) st) =
           if bool_decide (s ∈ selectedStates st) then selectedStates st
           else selectedStates st ++ [s]) ∧
  (∀ s st, selectedStates (exec (addStateFilter s) (exec (addStateFilter s) st)) =
           selectedStates (exec (addStateFilter s) st)) ∧
  (∀ s st, (s ∉ selectedStates (exec (removeStateFilter s) st)) ∧
           selectedStates (exec (removeStateFilter s) st) =
           filter (λ x, x ≠ s) (selectedStates st)) ∧
  (∀ st, selectedStates (exec onClearSearch st) = []) ∧
  (∀ intents st, NoDup (selectedStates st) → NoDup (selectedStates (run intents st))) ∧
  (∀ intents p, NoDup (selectedStates (run intents (initialViewer p)))).
Proof.
  assert (Hrun : ∀ intents st,
    NoDup (selectedStates st) → NoDup (selectedStates (run intents st))).
  { intros intents. induction intents as [|i intents IH] using rev_ind; intros st Hst.
    - done.
    - rewrite run_snoc. apply keepsDistinct_perform. by apply IH. }
  split_and!.
  - apply addStateFilter_selectedStates.
  - intros s st. rewrite (addStateFilter_selectedStates s (exec _ _)).
    rewrite addStateFilter_selectedStates.
    destruct (bool_decide (s ∈ selectedStates st)) eqn:Hin.
    + by rewrite Hin.
    + rewrite bool_decide_true; [done|]. apply elem_of_app. right.
      by apply list_elem_of_singleton.
  - intros s st. rewrite removeStateFilter_selectedStates. split; [|done].
    rewrite list_elem_of_filter. by intros [Hne _].
  - apply onClearSearch_selectedStates.
  - apply Hrun.
  - intros intents p. apply Hrun. apply NoDup_nil_2.
Qed.

(** ** The filter of the combination list *)

Lemma arrayIncludes_true xs x : arrayIncludes xs x = true ↔ x ∈ xs.
Proof. unfold arrayIncludes. by rewrite bool_decide_eq_true. Qed.

Lemma forallb_elem_of {A} (f : A → bool) (xs : list A) :
  forallb f xs = true ↔ ∀ x, x ∈ xs → f x = true.
Proof.
  induction xs as [|y xs IH]; simpl.
  - split; [|done]. intros _ x Hx. by apply elem_of_nil in Hx.
  - rewrite andb_true_iff, IH. split.
    + intros [Hy Hxs] x [->|Hx]%elem_of_cons; auto.
    + intros H. split; [apply H; left | intros x Hx; apply H; by right].
Qed.

Lemma passesFilter_true sel combo :
  passesFilter sel combo = true ↔ ∀ s, s ∈ sel → s ∈ states combo.
Proof.
  unfold passesFilter. case_bool_decide as Hlen.
  - apply nil_length_inv in Hlen as ->. split; [|done].
    intros _ s Hs. by apply elem_of_nil in Hs.
  - rewrite forallb_elem_of. by setoid_rewrite arrayIncludes_true.
Qed.

Lemma elem_of_indexed {A} (xs : list A) i x :
  (i, x) ∈ indexed xs ↔ xs !! i = Some x.
Proof.
  unfold indexed. rewrite elem_of_lookup_imap. split.
  - by intros (j & y & [= -> ->] & Hj).
  - intros Hi. by exists i, x.
Qed.

Lemma filter_all {A} (P : A → Prop) `{!∀ x, Decision (P x)} (xs : list A) :
  (∀ x, P x) → filter P xs = xs.
Proof.
  intros HP. induction xs as [|x xs IH]; [done|].
  rewrite filter_cons_True by done. by rewrite IH.
Qed.

Lemma elem_of_filterCombinations sel cs i c :
  (i, c) ∈ filterCombinations sel cs ↔
  cs !! i = Some c ∧ ∀ s, s ∈ sel → s ∈ states c.
Proof.
  unfold filterCombinations. rewrite list_elem_of_filter, elem_of_indexed. simpl.
  rewrite Is_true_true, passesFilter_true. tauto.
Qed.

(** C1.  A combination passes the filter of [renderCombinations] exactly
    when every state of the filter list is among its states: this is what
    the callback computes, and the filtered list holds, with its position,
    each loaded combination for which it holds and nothing else.  With an
    empty filter list every combination passes. *)
Theorem filter_keeps_combinations_with_all_selected :
  ∀ (cs : list Combo) (sel : list string),
    (∀ c, passesFilter sel c = true ↔ ∀ s, s ∈ sel → s ∈ states c) ∧
    (∀ i c, (i, c) ∈ filterCombinations sel cs ↔
            cs !! i = Some c ∧ ∀ s, s ∈ sel → s ∈ states c) ∧
    (∀ c, passesFilter [] c = true) ∧
    filterCombinations [] cs = indexed cs.
Proof.
  intros cs sel. split_and!.
  - intros c. apply passesFilter_true.
  - intros i c. apply elem_of_filterCombinations.
  - done.
  - unfold filterCombinations. by apply filter_all.
Qed.

(** ** Rendering the list *)

Lemma on_page_id st : on_page (λ p, p) st = st.
Proof. by destruct st. Qed.

Lemma forEachFrom_appendRow {A} (g : option nat → A → Row) (xs : list A) i st :
  forEachFrom i xs (λ _ x, selected ← gets selectedComboIndex;
                           appendRow (g selected x)) st =
  (Normal tt,
   on_page (λ p, set_combinationsList
                   (combinationsList p ++ (g (selectedComboIndex st) <$> xs)) p) st).
Proof.
  revert i st. induction xs as [|x xs IH]; intros i st; simpl.
  - destruct st as [? ? ? ? ? ? ? ? []]. unfold on_page, set_page, set_combinationsList.
    simpl. by rewrite app_nil_r.
  - rewrite !bind_run. simpl. rewrite IH. f_equal.
    destruct st as [? ? ? ? ? ? ? ? []]. unfold on_page, set_page, set_combinationsList.
    simpl. by rewrite <-app_assoc.
Qed.

Lemma take_min_length {A} (xs : list A) n :
  take (Nat.min (length xs) n) xs = take n xs.
Proof.
  destruct (Nat.le_gt_cases (length xs) n) as [Hle|Hgt].
  - rewrite Nat.min_l by done. by rewrite !take_ge by lia.
  - by rewrite Nat.min_r by lia.
Qed.

Lemma renderCombinations_run st data cs :
  combinationsData st = Some data → combinations data = Some cs →
  renderCombinations st =
  (Normal tt,
   on_page (λ p, set_listHeader (Some (renderedHeader st cs))
                   (set_combinationsList (renderedRows st cs) p)) st).
Proof.
  intros Hdata Hcs. unfold renderCombinations.
  rewrite bind_run. simpl. rewrite bind_run. simpl. rewrite Hdata.
  rewrite bind_run. simpl. rewrite Hcs. rewrite bind_run. simpl.
  rewrite bind_run. simpl. rewrite bind_run. unfold forEach.
  rewrite forEachFrom_appendRow. simpl.
  unfold renderedRows, renderedHeader.
  rewrite take_min_length.
  by destruct st as [? ? ? ? ? ? ? ? []].
Qed.

Lemma renderCombinations_rows_capped st :
  (length (combinationsList (page (exec renderCombinations st))) ≤ 500)%nat.
Proof.
  unfold exec.
  destruct (combinationsData st) as [data|] eqn:Hdata;
    [destruct (combinations data) as [cs|] eqn:Hcs|].
  - rewrite (renderCombinations_run st data cs) by done. simpl.
    unfold renderedRows. rewrite length_fmap, length_take. lia.
  - unfold renderCombinations. js_run. rewrite Hdata. js_run. rewrite Hcs. simpl. lia.
  - unfold renderCombinations. js_run. rewrite Hdata. simpl. lia.
Qed.

(** *** Statements that never throw *)

Lemma total_ret {B} (b : B) : total (mret b).
Proof. intros st. by exists b. Qed.

Lemma total_gets {B} (f : Viewer → B) : total (gets f).
Proof. intros st. by exists (f st). Qed.

Lemma total_modify f : total (modify f).
Proof. intros st. by exists tt. Qed.

Lemma total_bind {B C} (m : JS B) (f : B → JS C) :
  total m → (∀ b, total (f b)) → total (m ≫= f).
Proof.
  intros Hm Hf st. rewrite bind_run. destruct (Hm st) as [b Hb].
  destruct (m st) as [[b'|e] st1]; simpl in *; [|done]. apply Hf.
Qed.

Lemma total_forEachFrom {B} (xs : list B) f i :
  (∀ j x, total (f j x)) → total (forEachFrom i xs f).
Proof.
  intros Hf. revert i. induction xs as [|x xs IH]; intros i; simpl.
  - apply total_ret.
  - apply total_bind; [apply Hf | intros _; apply IH].
Qed.

Lemma total_updateFilterTotal : total updateFilterTotal.
Proof.
  unfold updateFilterTotal. apply total_bind; [apply total_gets|].
  intros sel. case_bool_decide; apply total_modify.
Qed.

Lemma total_renderFilterTags : total renderFilterTags.
Proof.
  unfold renderFilterTags. apply total_bind; [apply total_modify | intros _].
  apply total_bind; [apply total_gets | intros sel].
  apply total_bind; [|intros _; apply total_updateFilterTotal].
  apply total_forEachFrom. intros. apply total_modify.
Qed.

Lemma bind_total_run {B C} (m : JS B) (f : B → JS C) st :
  total m → ∃ b, (m ≫= f) st = f b (m st).2.
Proof.
  intros Hm. rewrite bind_run. destruct (Hm st) as [b Hb].
  destruct (m st) as [[b'|e] st1]; simpl in *; [|done]. by exists b'.
Qed.

(** *** The list pane after a change of the filter *)

(** The rows and the header of the list. *)
Lemma hideDropdown_keeps_list :
  preserves (λ st, (combinationsList (page st), listHeader (page st))) hideDropdown.
Proof. unfold hideDropdown, on_dropdown. frame. Qed.

Lemma highlightFilteredStates_keeps_page : preserves page highlightFilteredStates.
Proof.
  unfold highlightFilteredStates, eachLayer, layerSetStyle. frame.
Qed.

Lemma listShows_renderCombinations st data cs :
  combinationsData st = Some data → combinations data = Some cs →
  listShows cs (exec renderCombinations st).
Proof.
  intros Hdata Hcs. unfold exec. rewrite (renderCombinations_run st data cs) by done.
  by destruct st as [? ? ? ? ? ? ? ? []].
Qed.

(** What the three statements after a change of [selectedStates] leave in
    the list pane. *)
Lemma listShows_rerender st data cs :
  combinationsData st = Some data → combinations data = Some cs →
  let st' := exec (renderFilterTags ;; renderCombinations ;; highlightFilteredStates) st in
  listShows cs st' ∧ selectedStates st' = selectedStates st.
Proof.
  intros Hdata Hcs st'. subst st'. unfold exec.
  split; [|by rewrite (preserves_bind selectedStates) by (intros; frame)].
  destruct (bind_total_run renderFilterTags
              (λ _, renderCombinations ;; highlightFilteredStates) st
              total_renderFilterTags) as [[] ->].
  set (st1 := (renderFilterTags st).2).
  assert (Hd1 : combinationsData st1 = Some data).
  { unfold st1. by rewrite (preserves_renderFilterTags combinationsData). }
  pose proof (listShows_renderCombinations st1 data cs Hd1 Hcs) as [Hrows Hhead].
  set (st3 := ((renderCombinations ;; highlightFilteredStates) st1).2).
  assert (Hpage : page st3 = page (exec renderCombinations st1)).
  { unfold st3, exec. apply (proj_bind_preserved page).
    intros _. apply highlightFilteredStates_keeps_page. }
  assert (Hsel : selectedStates st3 = selectedStates (exec renderCombinations st1)).
  { unfold st3, exec. apply (proj_bind_preserved selectedStates). intros; frame. }
  assert (Hidx : selectedComboIndex st3 = selectedComboIndex (exec renderCombinations st1)).
  { unfold st3, exec. apply (proj_bind_preserved selectedComboIndex).
    intros _. unfold highlightFilteredStates, eachLayer, layerSetStyle. frame. }
  unfold listShows, renderedRows, renderedHeader in *.
  rewrite Hpage, Hsel, Hidx. done.
Qed.

Lemma listShows_listView cs st1 st2 :
  listView st2 = listView st1 → listShows cs st1 → listShows cs st2.
Proof.
  unfold listView, listShows, renderedRows, renderedHeader.
  intros [= -> -> -> ->]. done.
Qed.

Lemma listShows_removeStateFilter st data cs s :
  combinationsData st = Some data → combinations data = Some cs →
  listShows cs (exec (removeStateFilter s) st).
Proof.
  intros Hdata Hcs.
  apply (listShows_rerender
           (set_selectedStates (filter (λ x, x ≠ s) (selectedStates st)) st) data cs);
    done.
Qed.

Lemma listShows_onClearSearch st data cs :
  combinationsData st = Some data → combinations data = Some cs →
  listShows cs (exec onClearSearch st).
Proof.
  intros Hdata Hcs.
  apply (listShows_rerender
           (set_selectedStates [] (on_page (set_stateSearch "") st)) data cs);
    done.
Qed.

Lemma listShows_addStateFilter st data cs s :
  combinationsData st = Some data → combinations data = Some cs →
  s ∉ selectedStates st →
  listShows cs (exec (addStateFilter s) st).
Proof.
  intros Hdata Hcs Hs. unfold exec, addStateFilter. rewrite bind_run. simpl.
  unfold arrayIncludes. rewrite bool_decide_false by done. simpl.
  eapply listShows_listView.
  { apply (proj_bind_preserved listView). intros _.
    unfold hideDropdown, on_dropdown. frame. }
  apply (listShows_rerender
           (set_selectedStates (selectedStates st ++ [s]) st) data cs); done.
Qed.

Lemma listShows_capped cs st :
  listShows cs st →
  (length (combinationsList (page st)) ≤ 500)%nat ∧
  length (combinationsList (page st)) =
    Nat.min 500 (length (filterCombinations (selectedStates st) cs)) ∧
  header_count <$> listHeader (page st) =
    Some (length (filterCombinations (selectedStates st) cs)).
Proof.
  intros [-> ->]. unfold renderedRows. rewrite length_fmap, length_take.
  split_and!; [lia | done | done].
Qed.



(** ** The typeahead dropdown *)

Lemma dropItemsFrom_text hi i xs : item_text <$> dropItemsFrom hi i xs = xs.
Proof.
  revert i. induction xs as [|n xs IH]; intros i; simpl; [done|]. by rewrite IH.
Qed.

Lemma forEachFrom_dropdown (xs : list string) i st :
  forEachFrom i xs (λ idx n,
    hi ← gets highlightedIndex;
    on_dropdown (λ d,
      {| dd_items := dd_items d ++
                     [{| item_text := n;
                         item_highlighted := bool_decide (Z.of_nat idx = hi) |}];
         dd_hidden := dd_hidden d |})) st =
  (Normal tt,
   on_page (λ p, set_searchDropdown
     {| dd_items := dd_items (searchDropdown p) ++ dropItemsFrom (highlightedIndex st) i xs;
        dd_hidden := dd_hidden (searchDropdown p) |} p) st).
Proof.
  revert i st. induction xs as [|n xs IH]; intros i st; simpl.
  - destruct st as [? ? ? ? ? ? ? ? [? ? ? ? ? ? ? [] ? ? ?]].
    unfold on_page, set_page, set_searchDropdown. simpl. by rewrite app_nil_r.
  - js_run. rewrite IH. f_equal.
    destruct st as [? ? ? ? ? ? ? ? [? ? ? ? ? ? ? [] ? ? ?]].
    unfold on_page, set_page, set_searchDropdown. simpl. by rewrite <-app_assoc.
Qed.

Lemma showDropdown_run query st :
  showDropdown query st =
  if bool_decide (length (queryMatches query st) = 0%nat) || bool_decide (query = "")
  then hideDropdown st
  else (Normal tt,
        on_page (set_searchDropdown
          {| dd_items := dropItemsFrom (highlightedIndex st) 0
                           (take 8 (queryMatches query st));
             dd_hidden := false |}) st).
Proof.
  unfold showDropdown. js_run. fold (queryMatches query st).
  destruct (bool_decide (length (queryMatches query st) = 0%nat)
            || bool_decide (query = "")); [done|].
  js_run. unfold forEach. rewrite forEachFrom_dropdown. simpl.
  by destruct st as [? ? ? ? ? ? ? ? [? ? ? ? ? ? ? [] ? ? ?]].
Qed.

Lemma hideDropdown_run st :
  hideDropdown st =
  (Normal tt,
   set_highlightedIndex (-1)
     (on_page (λ p, set_searchDropdown
        {| dd_items := dd_items (searchDropdown p); dd_hidden := true |} p) st)).
Proof. reflexivity. Qed.

Lemma elem_of_queryMatches query st e :
  e ∈ queryMatches query st ↔
  e ∈ allStateNames st ∧
  includes (toLowerCase e) (toLowerCase query) = true ∧
  e ∉ selectedStates st.
Proof.
  unfold queryMatches, matchesQuery. rewrite list_elem_of_filter.
  rewrite Is_true_true, andb_true_iff, negb_true_iff.
  unfold arrayIncludes. rewrite bool_decide_eq_false. tauto.
Qed.

Lemma queryMatches_nil query st :
  (∀ n, n ∈ allStateNames st → matchesQuery query (selectedStates st) n = false) →
  queryMatches query st = [].
Proof.
  intros Hno. unfold queryMatches.
  induction (allStateNames st) as [|n ns IH]; [done|].
  rewrite filter_cons_False.
  - apply IH. intros m Hm. apply Hno. by right.
  - rewrite (Hno n) by left. by intros [].
Qed.

Lemma showDropdown_entries query st e :
  e ∈ displayedEntries (exec (showDropdown query) st) → e ∈ queryMatches query st.
Proof.
  unfold exec. rewrite showDropdown_run.
  destruct (bool_decide (length (queryMatches query st) = 0%nat)
            || bool_decide (query = "")).
  - rewrite hideDropdown_run. unfold displayedEntries. simpl.
    intros H. by apply elem_of_nil in H.
  - unfold displayedEntries. simpl. rewrite dropItemsFrom_text.
    intros (i & Hi & _)%elem_of_take. by eapply list_elem_of_lookup_2.
Qed.

Lemma showDropdown_at_most_8 query st :
  (length (displayedEntries (exec (showDropdown query) st)) ≤ 8)%nat.
Proof.
  unfold exec. rewrite showDropdown_run.
  destruct (bool_decide (length (queryMatches query st) = 0%nat)
            || bool_decide (query = "")).
  - rewrite hideDropdown_run. unfold displayedEntries. simpl. lia.
  - unfold displayedEntries. simpl. rewrite dropItemsFrom_text, length_take. lia.
Qed.

Lemma showDropdown_hides query st :
  query = "" ∨ queryMatches query st = [] →
  showDropdown query st = hideDropdown st.
Proof.
  intros H. rewrite showDropdown_run.
  destruct H as [-> | ->]; [|done].
  by rewrite orb_true_r.
Qed.

(** *** Where the names of the typeahead come from *)

Lemma loads_keep_allStateNames geo combos :
  preserves allStateNames (promiseAll (loadStatesGeoJSON geo) (loadCombinations combos)).
Proof. unfold loadStatesGeoJSON, loadCombinations. frame. Qed.

Lemma loadCombinations_keeps_geo combos : preserves statesGeoJSON (loadCombinations combos).
Proof. unfold loadCombinations. frame. Qed.

Lemma loads_statesGeoJSON geo combos st :
  statesGeoJSON st = None →
  statesGeoJSON (promiseAll (loadStatesGeoJSON geo) (loadCombinations combos) st).2 =
  match geo with
  | Parsed g => Some g
  | _ => None
  end.
Proof.
  intros Hst. unfold promiseAll.
  destruct (loadStatesGeoJSON geo st) as [ra st1] eqn:Ha.
  pose proof (loadCombinations_keeps_geo combos st1) as Hb.
  destruct (loadCombinations combos st1) as [rb st2]. simpl in *. rewrite Hb.
  destruct geo; unfold loadStatesGeoJSON in Ha; simpl in Ha;
    injection Ha as _ <-; done.
Qed.

Lemma renderStates_allStateNames st :
  allStateNames (exec renderStates st) = allStateNames st ∨
  ∃ geo fs, statesGeoJSON st = Some geo ∧ features geo = Some fs ∧
    allStateNames (exec renderStates st) =
      merge_sort String.le (name <$> filter isLower48 fs).
Proof.
  unfold exec, renderStates. js_run.
  destruct (statesGeoJSON st) as [geo|]; [|by left]. js_run.
  destruct (features geo) as [fs|] eqn:Hfs; [|by left]. js_run.
  right. exists geo, fs. split_and!; [done..|].
  destruct (map st) as [m|]; js_run; done.
Qed.

Lemma start_allStateNames geo combos st e :
  allStateNames st = [] → statesGeoJSON st = None →
  e ∈ allStateNames
        ((initMap ;;
          promiseAll (loadStatesGeoJSON geo) (loadCombinations combos) ;;
          renderStates ;; renderCombinations ;; setupEventListeners) st).2 →
  lower48Name geo e.
Proof.
  intros Hn1 Hg1. js_run.
  set (st2 := set_map _ st).
  pose proof (loads_keep_allStateNames geo combos st2) as Hn3.
  pose proof (loads_statesGeoJSON geo combos st2 Hg1) as Hg3.
  destruct (promiseAll _ _ st2) as [[[]|err] st3]; simpl in *.
  - rewrite (proj_bind_preserved allStateNames)
      by (intros; unfold setupEventListeners; frame).
    destruct (renderStates_allStateNames st3) as [Heq|(g & fs & Hg & Hfs & Heq)];
      unfold exec in Heq; rewrite Heq.
    + rewrite Hn3, Hn1. intros H. by apply elem_of_nil in H.
    + rewrite merge_sort_Permutation, list_elem_of_fmap.
      intros (f & -> & [Hlow Hf]%list_elem_of_filter).
      exists g, fs, f. split_and!; try done.
      rewrite Hg in Hg3. by destruct geo; simplify_eq.
  - rewrite Hn3, Hn1. intros H. by apply elem_of_nil in H.
Qed.

Lemma init_allStateNames geo combos st e :
  allStateNames st = [] → statesGeoJSON st = None →
  e ∈ allStateNames (exec (init geo combos) st) → lower48Name geo e.
Proof.
  intros Hnames Hgeo. unfold exec, init. js_run.
  case_bool_decide; simpl; by apply start_allStateNames.
Qed.



(** ** Hovering while a combination is selected *)

Section hover.
Context (st : Viewer) (layers : list Layer) (i : nat)
        (data : CombinationsData) (cs : list Combo) (combo : Combo).
Hypothesis Hlayers : statesLayer st = Some layers.
Hypothesis Hsel : selectedComboIndex st = Some i.
Hypothesis Hdata : combinationsData st = Some data.
Hypothesis Hcs : combinations data = Some cs.
Hypothesis Hcombo : cs !! i = Some combo.

Lemma layerAt_run t target :
  layers !! t = Some target → layerAt t st = (Normal target, st).
Proof.
  intros Ht. unfold layerAt. js_run. rewrite Hlayers. js_run. by rewrite Ht.
Qed.

Lemma inSelectedCombination_run s :
  inSelectedCombination s st = (Normal (arrayIncludes (states combo) s), st).
Proof.
  unfold inSelectedCombination. js_run. rewrite Hsel. js_run.
  rewrite Hdata. js_run. rewrite Hcs. js_run. by rewrite Hcombo.
Qed.

Lemma hover_inside t target :
  layers !! t = Some target → name (feature target) ∈ states combo →
  handleStateHover t st = (Normal tt, st) ∧ handleStateOut t st = (Normal tt, st).
Proof.
  intros Ht Hin. unfold handleStateHover, handleStateOut.
  rewrite !bind_run, (layerAt_run t target Ht).
  rewrite !bind_run, inSelectedCombination_run.
  apply arrayIncludes_true in Hin. by rewrite Hin.
Qed.

Lemma hover_outside t target :
  layers !! t = Some target → name (feature target) ∉ states combo →
  statesLayer (exec (handleStateHover t) st) =
    Some (alter (setStyle hoverStyle) t layers) ∧
  statesLayer (exec (handleStateOut t) st) =
    Some (alter (setStyle defaultStyle) t layers).
Proof.
  intros Ht Hout. unfold exec, handleStateHover, handleStateOut.
  rewrite !bind_run, (layerAt_run t target Ht).
  rewrite !bind_run, inSelectedCombination_run.
  unfold arrayIncludes. rewrite bool_decide_false by done.
  js_run. by rewrite Hlayers.
Qed.

Lemma hover_keeps_members t target k layer st' :
  layers !! t = Some target →
  layers !! k = Some layer → name (feature layer) ∈ states combo →
  st' = exec (handleStateHover t) st ∨ st' = exec (handleStateOut t) st →
  ∃ layers', statesLayer st' = Some layers' ∧ layers' !! k = Some layer.
Proof.
  intros Ht Hk Hin Hst'.
  destruct (decide (name (feature target) ∈ states combo)) as [Hin'|Hout].
  - destruct (hover_inside t target Ht Hin') as [Hover Hleave].
    exists layers. unfold exec in Hst'. rewrite Hover, Hleave in Hst'.
    by destruct Hst' as [-> | ->].
  - destruct (hover_outside t target Ht Hout) as [Hover Hleave].
    assert (t ≠ k) by (intros ->; congruence).
    destruct Hst' as [-> | ->]; eexists; (split; [done|]);
      by rewrite list_lookup_alter_ne.
Qed.
End hover.

(** C10.  While a combination is selected, a mouse-over or mouse-out on a
    state of that combination changes nothing (in particular the style of
    that state, which stays the selected style if it was); on a state
    outside the combination it sets the hover style, respectively the
    default style, on that state; and whatever state the event is on, every
    layer of a state of the selected combination keeps its style. *)
Theorem hover_leaves_selected_combination :
  ∀ (st : Viewer) (layers : list Layer) (i : nat) (data : CombinationsData)
    (cs : list Combo) (combo : Combo) (t : nat) (target : Layer),
    statesLayer st = Some layers →
    selectedComboIndex st = Some i →
    combinationsData st = Some data →
    combinations data = Some cs →
    cs !! i = Some combo →
    layers !! t = Some target →
    (name (feature target) ∈ states combo →
       handleStateHover t st = (Normal tt, st) ∧
       handleStateOut t st = (Normal tt, st)) ∧
    (name (feature target) ∉ states combo →
       statesLayer (exec (handleStateHover t) st) =
         Some (alter (setStyle hoverStyle) t layers) ∧
       statesLayer (exec (handleStateOut t) st) =
         Some (alter (setStyle defaultStyle) t layers)) ∧
    (∀ k layer st',
       layers !! k = Some layer → name (feature layer) ∈ states combo →
       st' = exec (handleStateHover t) st ∨ st' = exec (handleStateOut t) st →
       ∃ layers', statesLayer st' = Some layers' ∧ layers' !! k = Some layer).
Proof.
  intros st layers i data cs combo t target Hlayers Hsel Hdata Hcs Hcombo Ht.
  split_and!.
  - by eapply hover_inside.
  - by eapply hover_outside.
  - intros k layer st' Hk Hin Hst'.
    eapply (hover_keeps_members st layers i data cs combo); [done..|exact Ht|exact Hk|done|done].
Qed.

Lemma hover_leaves_selected_combination_witness :
  (handleStateHover 0 selectedViewer = (Normal tt, selectedViewer) ∧
   handleStateOut 0 selectedViewer = (Normal tt, selectedViewer)) ∧
  options <$> (statesLayer selectedViewer ≫= (.!! 0%nat)) =
    Some (mergeStyle selectedStyle (mergeStyle defaultStyle pathDefaults)) ∧
  options <$> (statesLayer (exec (handleStateHover 1) selectedViewer) ≫= (.!! 1%nat)) =
    Some (mergeStyle hoverStyle (mergeStyle defaultStyle pathDefaults)).
Proof.
  split; [|split].
  - apply (hover_leaves_selected_combination selectedViewer
             (default [] (statesLayer selectedViewer)) 2 sampleData
             (default [] (combinations sampleData))
             {| states := ["Texas"; "New Mexico"]; total_km2 := 1010579 |}
             0 {| feature := {| name := "Texas" |};
                  options := mergeStyle selectedStyle
                               (mergeStyle defaultStyle pathDefaults) |});
      try (by vm_compute).
    simpl. left.
  - by vm_compute.
  - by vm_compute.
Defined.

(** ** Starting on missing or malformed files *)

(** C6, as stated, fails: with [data/combinations.json] missing, [init]
    throws; the list stays empty without any header, no layer is created and
    no listener is installed. *)
Lemma init_missing_file_throws :
  ¬ degradesGracefully (Parsed sampleGeo) Missing (initialViewer (emptyPage 1024)) ∧
  outcome (init (Parsed sampleGeo) Missing) (initialViewer (emptyPage 1024)) =
    Throw SyntaxError ∧
  listHeader (page (exec (init (Parsed sampleGeo) Missing)
                         (initialViewer (emptyPage 1024)))) = None.
Proof.
  split_and!; [|by vm_compute..].
  intros (Hout & _). vm_compute in Hout. discriminate.
Qed.

(** C6, amended.  When a data file is missing, is not JSON or lacks a
    top-level property the viewer reads, [init] throws before anything is
    rendered: it creates no state layer, leaves the names of the typeahead,
    the combination list and its header as they were, and installs no event
    listener. *)
Theorem init_throws_on_unusable_file :
  ∀ (geo : Fetched GeoJSON) (combos : Fetched CombinationsData) (st : Viewer),
    unusableGeo geo ∨ unusableCombinations combos →
    let st' := exec (init geo combos) st in
    (∃ e, outcome (init geo combos) st = Throw e) ∧
    statesLayer st' = statesLayer st ∧
    allStateNames st' = allStateNames st ∧
    combinationsList (page st') = combinationsList (page st) ∧
    listHeader (page st') = listHeader (page st) ∧
    listenersInstalled (page st') = listenersInstalled (page st).
Proof.
  intros geo combos st H st'. subst st'. unfold exec, outcome, init.
  destruct geo as [| |[[fs|]]]; destruct combos as [| |[[area|] [cs|]]];
    simpl in H; try (by destruct H as [?|[?|?]]); clear H;
    js_run; case_bool_decide; js_run; eauto 10.
Qed.

Lemma init_throws_on_unusable_file_witness :
  (∃ e, outcome (init Malformed (Parsed sampleData)) (initialViewer (emptyPage 1024))
        = Throw e) ∧
  listHeader (page (exec (init Malformed (Parsed sampleData))
                         (initialViewer (emptyPage 1024)))) = None.
Proof.
  split.
  - apply (init_throws_on_unusable_file Malformed (Parsed sampleData)
             (initialViewer (emptyPage 1024))).
    left. exact I.
  - by vm_compute.
Defined.

(* ===================================================================== *)
(** ** The enumerator                                                     *)
(* ===================================================================== *)

Lemma elem_of_canonical S x : x ∈ canonical S ↔ x ∈ S.
Proof. unfold canonical. by rewrite merge_sort_Permutation. Qed.

Lemma symmetric_entries_symmetric g : symmetric_entries g → symmetric g.
Proof.
  intros Hg u v Huv. unfold adjacent, neighbours in Huv.
  destruct (g !! u) as [ns|] eqn:Hu; simpl in Huv; [|by apply elem_of_nil in Huv].
  pose proof (map_Forall_lookup_1 _ _ _ _ Hg Hu) as Hns.
  rewrite Forall_forall in Hns. by apply Hns.
Qed.

(** *** Connectedness is kept by the search *)

Section connected.
Context (g : gmap string (list string)).

Lemma induced_mono S S' u v :
  (∀ x, x ∈ S → x ∈ S') → rtc (induced g S) u v → rtc (induced g S') u v.
Proof.
  intros Hsub. apply rtc_subrel. intros x y (Hx & Hy & Hxy).
  split_and!; auto.
Qed.

Lemma connected_same_members S S' :
  (∀ x, x ∈ S' ↔ x ∈ S) → connected g S → connected g S'.
Proof.
  intros Heq [Hne Hpath]. split.
  - destruct S as [|s S]; [done|]. intros ->.
    assert (Hs : s ∈ []) by (apply Heq; left). by apply elem_of_nil in Hs.
  - intros u v Hu Hv. apply (induced_mono S); [intros x; apply Heq|].
    apply Hpath; by apply Heq.
Qed.

Lemma connected_singleton s : connected g [s].
Proof.
  split; [done|]. intros u v ->%list_elem_of_singleton ->%list_elem_of_singleton.
  apply rtc_refl.
Qed.

Lemma connected_add S m n :
  symmetric g → connected g S → m ∈ S → adjacent g m n → connected g (n :: S).
Proof.
  intros Hsym [Hne Hpath] Hm Hmn. split; [done|].
  assert (Hlift : ∀ u v, u ∈ S → v ∈ S → rtc (induced g (n :: S)) u v).
  { intros u v Hu Hv. apply (induced_mono S); [intros x Hx; by right|]. by apply Hpath. }
  assert (Hto : induced g (n :: S) m n) by (split_and!; [by right | left | done]).
  assert (Hfrom : induced g (n :: S) n m)
    by (split_and!; [left | by right | by apply Hsym]).
  intros u v [->|Hu]%elem_of_cons [->|Hv]%elem_of_cons.
  - apply rtc_refl.
  - eapply rtc_l; [exact Hfrom|]. by apply Hlift.
  - eapply rtc_r; [|exact Hto]. by apply Hlift.
  - by apply Hlift.
Qed.

Lemma expand_connected S S' :
  symmetric g → connected g S → S' ∈ expand g S → connected g S'.
Proof.
  intros Hsym HS. unfold expand.
  intros (m & HS' & Hm)%list_elem_of_bind.
  apply list_elem_of_bind in HS' as (n & HS' & Hn).
  destruct (decide (n ∈ S)); [by apply elem_of_nil in HS'|].
  apply list_elem_of_singleton in HS' as ->.
  apply (connected_same_members (n :: S)); [apply elem_of_canonical|].
  by apply (connected_add S m n).
Qed.

Lemma grow_connected areas cfg frontier :
  symmetric g → Forall (connected g) frontier →
  Forall (connected g) (grow g areas cfg frontier).
Proof.
  intros Hsym Hfr. rewrite Forall_forall in Hfr. apply Forall_forall.
  intros S'. unfold grow. rewrite elem_of_remove_dups, list_elem_of_filter.
  intros [_ (S & HS' & HS)%list_elem_of_bind].
  apply (expand_connected S); auto.
Qed.

Lemma seeds_connected areas cfg : Forall (connected g) (seeds g areas cfg).
Proof.
  apply Forall_forall. intros S. unfold seeds.
  rewrite list_elem_of_filter, list_elem_of_fmap.
  intros [_ (s & -> & _)]. apply connected_singleton.
Qed.

Lemma search_connected areas cfg fuel frontier :
  symmetric g → Forall (connected g) frontier →
  Forall (connected g) (search g areas cfg fuel frontier).
Proof.
  intros Hsym. revert frontier.
  induction fuel as [|fuel IH]; intros frontier Hfr; simpl; [constructor|].
  apply Forall_app. split; [done|]. apply IH. by apply grow_connected.
Qed.
End connected.

(** *** What [enumerate] returns *)

Lemma elem_of_enumerate g areas cfg out c :
  enumerate g areas cfg = Some out → c ∈ out →
  well_formed g areas ∧
  c = tag areas (members c) ∧
  retained areas cfg (members c) ∧
  members c ∈ search g areas cfg (max_size cfg) (seeds g areas cfg).
Proof.
  unfold enumerate. case_decide as Hwf; [|done]. intros [= <-].
  rewrite merge_sort_Permutation, list_elem_of_fmap.
  intros (S & -> & [Hret HS]%list_elem_of_filter). done.
Qed.

(** C2.  On a symmetric adjacency graph, every combination the enumerator
    returns is connected: it has a member, and any two of its members are
    joined by a path of adjacent states all of which are members. *)
Theorem enumerate_connected :
  ∀ (g : gmap string (list string)) (areas : gmap string Z) (cfg : Config)
    (out : list Combination) (c : Combination),
    symmetric g →
    enumerate g areas cfg = Some out →
    c ∈ out →
    connected g (members c).
Proof.
  intros g areas cfg out c Hsym Hout Hc.
  destruct (elem_of_enumerate g areas cfg out c Hout Hc) as (_ & _ & _ & Hsearch).
  pose proof (search_connected g areas cfg (max_size cfg) (seeds g areas cfg) Hsym
                (seeds_connected g areas cfg)) as Hall.
  rewrite Forall_forall in Hall. by apply Hall.
Qed.

(** C3.  Every combination the enumerator returns is tagged with the sum of
    the areas of its members, and that sum differs from the target by at
    most the configured tolerance. *)
Theorem enumerate_within_tolerance :
  ∀ (g : gmap string (list string)) (areas : gmap string Z) (cfg : Config)
    (out : list Combination) (c : Combination),
    enumerate g areas cfg = Some out →
    c ∈ out →
    total_area c = sum_areas areas (members c) ∧
    Z.abs (sum_areas areas (members c) - target cfg) ≤ tolerance cfg.
Proof.
  intros g areas cfg out c Hout Hc.
  destruct (elem_of_enumerate g areas cfg out c Hout Hc) as (_ & Htag & [_ Htol] & _).
  split; [by rewrite Htag at 1|done].
Qed.

(** *** The example of the specification *)

Lemma search_nil g areas cfg fuel : search g areas cfg fuel [] = [].
Proof. induction fuel as [|fuel IH]; [done|]. simpl. apply IH. Qed.

Lemma path_candidates lo hi :
  (2 ≤ hi)%nat →
  search pathGraph pathAreas (pathConfig lo hi) hi
         (seeds pathGraph pathAreas (pathConfig lo hi)) =
  [["A"]; ["B"]; ["C"]; ["D"]; ["A"; "B"]; ["B"; "C"]; ["C"; "D"]].
Proof.
  intros Hhi. destruct hi as [|[|k]]; [lia..|].
  set (cfg := pathConfig lo (S (S k))).
  change (search pathGraph pathAreas cfg (S (S k)) ?f)
    with (f ++ grow pathGraph pathAreas cfg f
            ++ search pathGraph pathAreas cfg k
                 (grow pathGraph pathAreas cfg (grow pathGraph pathAreas cfg f))).
  replace (grow pathGraph pathAreas cfg
             (grow pathGraph pathAreas cfg (seeds pathGraph pathAreas cfg)))
    with (@nil (list string)) by (by vm_compute).
  rewrite search_nil. by vm_compute.
Qed.

Lemma path_well_formed : well_formed pathGraph pathAreas.
Proof. apply (bool_decide_unpack (well_formed pathGraph pathAreas)). by vm_compute. Qed.

(** C7.  On the path A-B, B-C, C-D with areas A:10, B:20, C:15, D:5, target
    35 and tolerance 0, the enumerator returns the combination {B, C}, with
    total 35, and nothing else, whenever groups of two states are within the
    configured sizes. *)
Theorem enumerate_path_example :
  ∀ lo hi : nat,
    (lo ≤ 2)%nat → (2 ≤ hi)%nat →
    enumerate pathGraph pathAreas (pathConfig lo hi) =
    Some [ {| members := ["B"; "C"]; total_area := 35 |} ].
Proof.
  intros lo hi Hlo Hhi. unfold enumerate.
  rewrite decide_True by apply path_well_formed.
  change (max_size (pathConfig lo hi)) with hi.
  rewrite path_candidates by done.
  destruct lo as [|[|[|lo]]]; [by vm_compute.. | lia].
Qed.

Lemma enumerate_path_example_witness :
  enumerate pathGraph pathAreas (pathConfig 1 4) =
  Some [ {| members := ["B"; "C"]; total_area := 35 |} ].
Proof. apply (enumerate_path_example 1 4); lia. Defined.

Lemma path_symmetric : symmetric pathGraph.
Proof.
  apply symmetric_entries_symmetric.
  apply (bool_decide_unpack (symmetric_entries pathGraph)). by vm_compute.
Qed.

Lemma enumerate_connected_witness : connected pathGraph ["B"; "C"].
Proof.
  apply (enumerate_connected pathGraph pathAreas (pathConfig 1 4)
           [ {| members := ["B"; "C"]; total_area := 35 |} ]
           {| members := ["B"; "C"]; total_area := 35 |}).
  - apply path_symmetric.
  - reflexivity.
  - left.
Defined.

Lemma enumerate_within_tolerance_witness :
  35 = sum_areas pathAreas ["B"; "C"] ∧
  Z.abs (sum_areas pathAreas ["B"; "C"] - 35) ≤ 0.
Proof.
  apply (enumerate_within_tolerance pathGraph pathAreas (pathConfig 1 4)
           [ {| members := ["B"; "C"]; total_area := 35 |} ]
           {| members := ["B"; "C"]; total_area := 35 |}).
  - reflexivity.
  - left.
Defined.

(* ===================================================================== *)
(** ** Starting on usable files                                           *)
(* ===================================================================== *)

Lemma loads_run g d area cs st :
  greenland_km2 d = Some area → combinations d = Some cs →
  promiseAll (loadStatesGeoJSON (Parsed g)) (loadCombinations (Parsed d)) st =
  (Normal tt,
   on_page (λ p, set_stats {| greenlandAreaText := greenlandAreaText (stats p);
                              comboCountText := Some (length cs) |} p)
     (on_page (λ p, set_stats {| greenlandAreaText := Some area;
                                 comboCountText := comboCountText (stats p) |} p)
        (set_combinationsData (Some d) (set_statesGeoJSON (Some g) st)))).
Proof.
  intros Harea Hcs. unfold promiseAll, loadStatesGeoJSON, loadCombinations.
  js_run. rewrite Harea. js_run. by rewrite Hcs.
Qed.

Lemma renderStates_run g fs m st :
  statesGeoJSON st = Some g → features g = Some fs → map st = Some m →
  renderStates st =
  (Normal tt,
   set_map (Some {| view := AllStates; paintOrder := seq 0 (length (filter isLower48 fs)) |})
     (set_statesLayer (Some (newLayer <$> filter isLower48 fs))
        (set_allStateNames (merge_sort String.le (name <$> filter isLower48 fs)) st))).
Proof.
  intros Hg Hfs Hm. unfold renderStates, mapFitBounds.
  js_run. rewrite Hg. js_run. rewrite Hfs. js_run. rewrite Hm. js_run.
  by destruct st.
Qed.

Lemma init_usable_run fs area cs st :
  ∃ st',
    init (Parsed {| features := Some fs |})
         (Parsed {| greenland_km2 := Some area; combinations := Some cs |}) st
      = (Normal tt, st') ∧
    combinationsData st' =
      Some {| greenland_km2 := Some area; combinations := Some cs |} ∧
    statesLayer st' = Some (newLayer <$> filter isLower48 fs) ∧
    allStateNames st' = merge_sort String.le (name <$> filter isLower48 fs) ∧
    map st' = Some {| view := AllStates;
                      paintOrder := seq 0 (length (filter isLower48 fs)) |} ∧
    stats (page st') = {| greenlandAreaText := Some area;
                          comboCountText := Some (length cs) |} ∧
    listenersInstalled (page st') = true ∧
    selectedStates st' = selectedStates st ∧
    selectedComboIndex st' = selectedComboIndex st ∧
    listShows cs st'.
Proof.
  unfold init. rewrite bind_run. simpl.
  assert (∃ st0,
    when (bool_decide (innerWidth (layout (page st)) ≤ 768))
      (modify (on_page (λ p,
         set_layout {| innerWidth := innerWidth (layout p);
                       mapContainerHidden := true;
                       sidebarHidden := sidebarHidden (layout p);
                       activeTab := activeTab (layout p) |} p))) st
      = (Normal tt, st0) ∧
    selectedStates st0 = selectedStates st ∧
    selectedComboIndex st0 = selectedComboIndex st) as (st0 & Hwhen & Hsel0 & Hidx0).
  { case_bool_decide; eexists; split_and!; reflexivity. }
  rewrite (bind_normal _ _ _ _ _ Hwhen). unfold initMap. rewrite bind_run. simpl.
  erewrite (bind_normal (promiseAll _ _)) by (by apply loads_run).
  erewrite (bind_normal renderStates) by (by eapply renderStates_run).
  erewrite (bind_normal renderCombinations)
    by (by eapply (renderCombinations_run _ _ cs)).
  eexists. split; [reflexivity|]. simpl. rewrite Hsel0, Hidx0.
  split_and!; try reflexivity. split; reflexivity.
Qed.

Lemma init_unusable_throws geo combos st :
  unusableGeo geo ∨ unusableCombinations combos →
  ∃ e, outcome (init geo combos) st = Throw e.
Proof.
  intros H. unfold outcome, init.
  destruct geo as [| |[[fs|]]]; destruct combos as [| |[[area|] [cs|]]];
    simpl in H; try (by destruct H as [?|[?|?]]); clear H;
    js_run; case_bool_decide; js_run; eauto.
Qed.

Lemma unusableGeo_dec geo : unusableGeo geo ∨ ∃ fs, geo = Parsed {| features := Some fs |}.
Proof. destruct geo as [| |[[fs|]]]; simpl; eauto. Qed.

Lemma unusableCombinations_dec combos :
  unusableCombinations combos ∨
  ∃ area cs, combos = Parsed {| greenland_km2 := Some area; combinations := Some cs |}.
Proof. destruct combos as [| |[[area|] [cs|]]]; simpl; eauto. Qed.



(* ===================================================================== *)
(** ** Restyling the layers                                               *)
(* ===================================================================== *)

Lemma alter_middle {A} (f : A → A) (pre : list A) x xs :
  alter f (length pre) (pre ++ x :: xs) = pre ++ f x :: xs.
Proof. induction pre as [|y pre IH]; simpl; [done|]. f_equal. apply IH. Qed.

(** A callback that restyles its layer by [r] and keeps [Q]: [forEach]
    restyles every layer by [r]. *)
Lemma forEachFrom_layers (r : Layer → Layer) (Q : Viewer → Prop)
    (body : nat → Layer → JS unit) :
  (∀ i x st ls, statesLayer st = Some ls → ls !! i = Some x → Q st →
     ∃ st', body i x st = (Normal tt, st') ∧
            statesLayer st' = Some (alter r i ls) ∧ Q st') →
  ∀ xs pre st, statesLayer st = Some (pre ++ xs) → Q st →
     ∃ st', forEachFrom (length pre) xs body st = (Normal tt, st') ∧
            statesLayer st' = Some (pre ++ (r <$> xs)) ∧ Q st'.
Proof.
  intros Hbody xs. induction xs as [|x xs IH]; intros pre st Hls HQ; simpl.
  - exists st. by rewrite app_nil_r in *.
  - destruct (Hbody (length pre) x st _ Hls) as (st1 & Hrun & Hls1 & HQ1); [|done|].
    { by rewrite lookup_app_r, Nat.sub_diag by lia. }
    rewrite alter_middle in Hls1.
    destruct (IH (pre ++ [r x]) st1) as (st2 & Hrun2 & Hls2 & HQ2); [|done|].
    { by rewrite <-app_assoc. }
    exists st2. rewrite (bind_normal _ _ _ _ _ Hrun).
    rewrite length_app, Nat.add_1_r in Hrun2. rewrite Hrun2.
    by rewrite <-app_assoc in Hls2.
Qed.

Lemma eachLayer_layers (r : Layer → Layer) (Q : Viewer → Prop)
    (body : nat → Layer → JS unit) st ls :
  (∀ i x st ls, statesLayer st = Some ls → ls !! i = Some x → Q st →
     ∃ st', body i x st = (Normal tt, st') ∧
            statesLayer st' = Some (alter r i ls) ∧ Q st') →
  statesLayer st = Some ls → Q st →
  ∃ st', eachLayer body st = (Normal tt, st') ∧
         statesLayer st' = Some (r <$> ls) ∧ Q st'.
Proof.
  intros Hbody Hls HQ. unfold eachLayer, forEach. js_run. rewrite Hls. js_run.
  by apply (forEachFrom_layers r Q body Hbody ls [] st).
Qed.

Lemma eachLayer_undefined body st :
  statesLayer st = None → eachLayer body st = (Throw TypeError, st).
Proof. intros Hls. unfold eachLayer. js_run. by rewrite Hls. Qed.

Lemma alter_id_at {A} (f : A → A) (l : list A) i x :
  l !! i = Some x → f x = x → alter f i l = l.
Proof.
  revert i. induction l as [|y l IH]; intros [|i] Hi Hx; simpl in *; [done..| |].
  - simplify_eq. congruence.
  - f_equal. by apply IH.
Qed.

Lemma alter_at {A} (f g : A → A) (l : list A) i x :
  l !! i = Some x → f x = g x → alter f i l = alter g i l.
Proof.
  revert i. induction l as [|y l IH]; intros [|i] Hi Hx; simpl in *; [done..| |].
  - simplify_eq. congruence.
  - f_equal. by apply IH.
Qed.

Lemma resetMapStyles_run st ls :
  statesLayer st = Some ls →
  ∃ st', resetMapStyles st = (Normal tt, st') ∧
         statesLayer st' = Some (setStyle defaultStyle <$> ls) ∧
         map st' = map st ∧ offMap st' = offMap st.
Proof.
  intros Hls. unfold resetMapStyles.
  apply (eachLayer_layers (setStyle defaultStyle)
           (λ st', map st' = map st ∧ offMap st' = offMap st)); [|done..].
  intros i x st1 ls1 Hls1 Hi [Hmap Hoff]. eexists. split; [reflexivity|].
  simpl. by rewrite Hls1.
Qed.

Lemma highlightFilteredStates_run st ls :
  statesLayer st = Some ls →
  ∃ st', highlightFilteredStates st = (Normal tt, st') ∧
         statesLayer st' =
           Some (highlightLayer (selectedStates st) (selectedComboIndex st) <$> ls) ∧
         map st' = map st ∧ offMap st' = offMap st.
Proof.
  intros Hls. unfold highlightFilteredStates.
  apply (eachLayer_layers (highlightLayer (selectedStates st) (selectedComboIndex st))
           (λ st', map st' = map st ∧ offMap st' = offMap st)); [|done..].
  intros i x st1 ls1 Hls1 Hi [Hmap Hoff].
  assert (selectedStates st1 = selectedStates st ∧
          selectedComboIndex st1 = selectedComboIndex st) as [Hsel Hidx].
  { unfold offMap in Hoff. by simplify_eq. }
  js_run. rewrite Hsel.
  destruct (arrayIncludes (selectedStates st) (name (feature x))) eqn:Hin.
  - eexists. split; [reflexivity|]. simpl. rewrite Hls1. simpl. split; [|done].
    f_equal. apply (alter_at _ _ _ _ x Hi). unfold highlightLayer. by rewrite Hin.
  - js_run. rewrite Hidx. destruct (selectedComboIndex st) as [j|] eqn:Hj; simpl.
    + exists st1. split_and!; [done| |done..]. rewrite Hls1. f_equal.
      symmetry. apply (alter_id_at _ _ _ x Hi). unfold highlightLayer. by rewrite Hin.
    + eexists. split; [reflexivity|]. simpl. rewrite Hls1. simpl. split; [|done].
      f_equal. apply (alter_at _ _ _ _ x Hi). unfold highlightLayer. by rewrite Hin.
Qed.

Lemma selectLayers_run st ls c :
  statesLayer st = Some ls →
  ∃ st',
    eachLayer (λ i layer,
      c' ← defined (Some c);
      when (arrayIncludes (states c') (name (feature layer)))
        (layerSetStyle i selectedStyle ;; layerBringToFront i)) st
      = (Normal tt, st') ∧
    statesLayer st' = Some (selectLayer c <$> ls) ∧
    mapExists st' = mapExists st ∧ offMap st' = offMap st.
Proof.
  intros Hls.
  apply (eachLayer_layers (selectLayer c)
           (λ st', mapExists st' = mapExists st ∧ offMap st' = offMap st)); [|done..].
  intros i x st1 ls1 Hls1 Hi [Hmap Hoff]. js_run.
  destruct (arrayIncludes (states c) (name (feature x))) eqn:Hin; simpl.
  - eexists. split; [reflexivity|]. simpl. rewrite Hls1. simpl. split_and!.
    + f_equal. apply (alter_at _ _ _ _ x Hi). unfold selectLayer. by rewrite Hin.
    + rewrite <-Hmap. unfold mapExists. simpl. by destruct (map st1).
    + done.
  - exists st1. split_and!; [done| |done..]. rewrite Hls1. f_equal.
    symmetry. apply (alter_id_at _ _ _ x Hi). unfold selectLayer. by rewrite Hin.
Qed.

(* ===================================================================== *)
(** ** Selecting and clearing                                             *)
(* ===================================================================== *)

Lemma layersOf_imap c (r : Layer → Layer) (F G : nat → Layer → nat * Layer) ls :
  (∀ i x, (F i (r x)).1 = (G i x).1 ∧ feature (F i (r x)).2 = feature (G i x).2) →
  (filter (λ il : nat * Layer, arrayIncludes (states c) (name (feature il.2)))
          (imap F (r <$> ls))).*1 =
  (filter (λ il : nat * Layer, arrayIncludes (states c) (name (feature il.2)))
          (imap G ls)).*1.
Proof.
  revert F G. induction ls as [|l ls IH]; intros F G HFG; [done|].
  csimpl. rewrite !filter_cons. destruct (HFG 0%nat l) as [H1 H2]. rewrite H2.
  specialize (IH (F ∘ S) (G ∘ S) (λ i x, HFG (S i) x)).
  destruct (decide _); csimpl; by rewrite IH, ?H1.
Qed.

Lemma layersOf_fmap c (r : Layer → Layer) ls :
  (∀ l, feature (r l) = feature l) → layersOf c (r <$> ls) = layersOf c ls.
Proof.
  intros Hr. unfold layersOf, indexed. apply layersOf_imap.
  intros i x. simpl. by rewrite Hr.
Qed.

Lemma selectLayer_feature c l : feature (selectLayer c l) = feature l.
Proof. unfold selectLayer. by destruct (arrayIncludes _ _). Qed.

Lemma highlightLayer_feature sel idx l : feature (highlightLayer sel idx l) = feature l.
Proof. unfold highlightLayer. by destruct (arrayIncludes _ _), idx. Qed.

(** The first statement of [selectCombination]: undoing the previous
    selection. *)
Lemma unselect_run st ls :
  statesLayer st = Some ls →
  ∃ st1,
    match selectedComboIndex st with
    | Some p => resetMapStyles ;; markRow p false
    | None => mret tt
    end st = (Normal tt, st1) ∧
    statesLayer st1 = Some (resetLayers (selectedComboIndex st) ls) ∧
    map st1 = map st ∧
    offMap st1 =
      offMap (on_page (λ p, set_combinationsList
                match selectedComboIndex st with
                | Some i => markFirst i false (combinationsList p)
                | None => combinationsList p
                end p) st).
Proof.
  intros Hls. destruct (selectedComboIndex st) as [p|] eqn:Hp.
  - destruct (resetMapStyles_run st ls Hls) as (st1 & Hrun & Hls1 & Hmap1 & Hoff1).
    eexists. rewrite (bind_normal _ _ _ _ _ Hrun). split; [reflexivity|].
    simpl. split_and!; [done..|].
    unfold offMap in *. simpl in *. congruence.
  - exists st. split_and!; [done..|]. by destruct st as [? ? ? ? ? ? ? ? []].
Qed.

Lemma selectCombination_run st ls data cs idx c :
  statesLayer st = Some ls →
  combinationsData st = Some data → combinations data = Some cs →
  cs !! idx = Some c →
  ∃ st',
    selectCombination idx st = (Normal tt, st') ∧
    statesLayer st' = Some (selectLayer c <$> resetLayers (selectedComboIndex st) ls) ∧
    mapExists st' = mapExists st ∧
    selectedComboIndex st' = Some idx ∧
    selectedStates st' = selectedStates st ∧
    combinationsList (page st') =
      remarkRows (selectedComboIndex st) idx (combinationsList (page st)) ∧
    listHeader (page st') = listHeader (page st) ∧
    selectedInfo (page st') =
      {| si_hidden := false; si_states := Some (states c);
         si_area := Some (total_km2 c) |} ∧
    timers (page st') =
      timers (page st) ++
      (if bool_decide (0 < length (layersOf c ls))%nat
       then [(100%nat, FitSelected (layersOf c ls))] else []) ∧
    layout (page st') = layoutAfterSelect (length (layersOf c ls)) (page st).
Proof.
  intros Hls Hdata Hcs Hc. unfold selectCombination. rewrite bind_run. simpl.
  destruct (unselect_run st ls Hls) as (st1 & Hrun1 & Hls1 & Hmap1 & Hoff1).
  rewrite (bind_normal _ _ _ _ _ Hrun1). js_run.
  assert (Hdata1 : combinationsData st1 = Some data).
  { unfold offMap in Hoff1. simpl in Hoff1. congruence. }
  rewrite Hdata1. js_run. rewrite Hcs. js_run. rewrite Hc.
  destruct (selectLayers_run (set_selectedComboIndex (Some idx) st1) _ c Hls1)
    as (st3 & Hrun3 & Hls3 & Hmap3 & Hoff3).
  rewrite Hrun3. js_run. rewrite Hls3. js_run.
  rewrite (layersOf_fmap c (selectLayer c)) by apply selectLayer_feature.
  assert (Hlayers : layersOf c (resetLayers (selectedComboIndex st) ls) = layersOf c ls).
  { unfold resetLayers. destruct (selectedComboIndex st); [|done].
    by apply layersOf_fmap. }
  rewrite Hlayers.
  assert (Hpage3 : page st3 =
    set_combinationsList
      match selectedComboIndex st with
      | Some i => markFirst i false (combinationsList (page st))
      | None => combinationsList (page st)
      end (page st)).
  { unfold offMap in Hoff1, Hoff3. simpl in Hoff1, Hoff3. congruence. }
  assert (selectedStates st3 = selectedStates st ∧
          selectedComboIndex st3 = Some idx) as [Hsel3 Hidx3].
  { unfold offMap in Hoff1, Hoff3. simpl in Hoff1, Hoff3. split; congruence. }
  assert (Hmap : mapExists st3 = mapExists st).
  { rewrite Hmap3. unfold mapExists. simpl. by rewrite Hmap1. }
  unfold layoutAfterSelect, remarkRows.
  destruct (bool_decide (0 < length (layersOf c ls))%nat); js_run.
  - rewrite Hpage3. simpl.
    destruct (bool_decide (innerWidth (layout (page st)) ≤ 768)); js_run.
    + unfold clickTab. js_run. rewrite Hpage3. simpl.
      destruct (listenersInstalled (page st)); js_run;
        eexists; (split; [reflexivity|]); simpl; rewrite ?Hpage3; simpl;
        split_and!; try done; by destruct (selectedComboIndex st).
    + eexists; (split; [reflexivity|]); simpl; rewrite ?Hpage3; simpl;
        split_and!; try done; by destruct (selectedComboIndex st).
  - eexists; (split; [reflexivity|]); simpl; rewrite ?Hpage3; simpl.
    rewrite app_nil_r.
    split_and!; try done; by destruct (selectedComboIndex st).
Qed.

(** A frame proof over statements unfolded to reads and writes; [tac] shows
    that a write leaves the part alone. *)
Ltac frame_step_by tac :=
  lazymatch goal with
  | |- preserves _ (mbind _ _) => apply preserves_bind; [|intros ?]
  | |- preserves _ (mret _) => apply preserves_ret
  | |- preserves _ (gets _) => apply preserves_gets
  | |- preserves _ (throw _) => apply preserves_throw
  | |- preserves _ (defined _) => apply preserves_defined
  | |- preserves _ (when _ _) => apply preserves_when
  | |- preserves _ (forEach _ _) => apply preserves_forEach; intros ? ?
  | |- preserves _ (modify _) => apply preserves_modify; intros ?; tac
  | |- preserves _ (match ?x with _ => _ end) => destruct x
  | |- preserves _ (let _ := _ in _) => cbv zeta
  end.

Ltac frame_by tac := repeat (frame_step_by tac).

(** The write does not reach the part: both sides compute to the same. *)
Ltac unchanged := reflexivity.

Create HintDb js.

#[local] Hint Unfold
  handleStateClick handleStateHover handleStateOut inSelectedCombination
  onSearchInput onSearchKeyDown onSearchFocus onSearchBlur onItemEnter
  onClearSearch onTabClick clickTab runTask addStateFilter removeStateFilter
  renderFilterTags updateFilterTotal highlightFilteredStates renderCombinations
  appendRow showDropdown hideDropdown updateDropdownHighlight on_dropdown
  selectCombination clearSelection resetMapStyles markRow setTimeout eachLayer
  layerAt layerSetStyle layerBringToFront mapFitBounds setupEventListeners : js.

(** *** The layers are only restyled *)

Lemma fmap_feature_alter u i (ls : list Layer) :
  feature <$> alter (setStyle u) i ls = feature <$> ls.
Proof.
  revert i. induction ls as [|l ls IH]; intros [|i]; simpl; [done..| |].
  - done.
  - f_equal. apply IH.
Qed.

Ltac keep_layerFeatures :=
  first [ reflexivity
        | unfold layerFeatures; simpl;
          match goal with
          | |- context [statesLayer ?st] => destruct (statesLayer st); simpl;
              [f_equal; apply fmap_feature_alter | reflexivity]
          end ].

Lemma perform_keeps_layerFeatures i : preserves layerFeatures (perform i).
Proof.
  destruct i; simpl; repeat autounfold with js; frame_by keep_layerFeatures.
Qed.

Section keeps.
Context (P : Viewer → Prop).

Lemma keeps_ret {B} (b : B) : keeps P (mret b).
Proof. by intros st. Qed.

Lemma keeps_bind {B C} (m : JS B) (f : B → JS C) :
  keeps P m → (∀ b, keeps P (f b)) → keeps P (m ≫= f).
Proof.
  intros Hm Hf st Hst. rewrite bind_run. specialize (Hm st Hst).
  destruct (m st) as [[b|e] st1]; simpl in *; [|done]. by apply Hf.
Qed.

Lemma keeps_gets {B} (f : Viewer → B) : keeps P (gets f).
Proof. by intros st. Qed.

Lemma keeps_throw {B} e : keeps P (throw (A:=B) e).
Proof. by intros st. Qed.

Lemma keeps_defined {B} (o : option B) : keeps P (defined o).
Proof. destruct o; [apply keeps_ret | apply keeps_throw]. Qed.

Lemma keeps_when b m : keeps P m → keeps P (when b m).
Proof. destruct b; [done | intros _; apply keeps_ret]. Qed.

Lemma keeps_modify f : (∀ st, P st → P (f st)) → keeps P (modify f).
Proof. intros Hf st. apply Hf. Qed.

Lemma keeps_forEachFrom {B} (xs : list B) f i :
  (∀ j x, keeps P (f j x)) → keeps P (forEachFrom i xs f).
Proof.
  intros Hf. revert i. induction xs as [|x xs IH]; intros i; simpl.
  - apply keeps_ret.
  - apply keeps_bind; [apply Hf | intros _; apply IH].
Qed.

Lemma keeps_forEach {B} (xs : list B) f :
  (∀ j x, keeps P (f j x)) → keeps P (forEach xs f).
Proof. apply keeps_forEachFrom. Qed.

Lemma keeps_run :
  (∀ i, keeps P (perform i)) → ∀ intents st, P st → P (run intents st).
Proof.
  intros H intents. induction intents as [|i intents IH] using rev_ind; intros st Hst.
  - done.
  - rewrite run_snoc. apply H. by apply IH.
Qed.
End keeps.

Ltac keep_step_by tac :=
  lazymatch goal with
  | |- keeps _ (mbind _ _) => apply keeps_bind; [|intros ?]
  | |- keeps _ (mret _) => apply keeps_ret
  | |- keeps _ (gets _) => apply keeps_gets
  | |- keeps _ (throw _) => apply keeps_throw
  | |- keeps _ (defined _) => apply keeps_defined
  | |- keeps _ (when _ _) => apply keeps_when
  | |- keeps _ (forEach _ _) => apply keeps_forEach; intros ? ?
  | |- keeps _ (modify _) => apply keeps_modify; intros ? ?; tac
  | |- keeps _ (match ?x with _ => _ end) => destruct x
  | |- keeps _ (let _ := _ in _) => cbv zeta
  end.

Ltac keep_by tac := repeat (keep_step_by tac).

Lemma perform_keeps_map i : keeps (λ st, is_Some (map st)) (perform i).
Proof.
  destruct i; simpl; repeat autounfold with js;
    keep_by ltac:(simpl;
      first [ assumption
            | solve [eauto]
            | match goal with
              | H : is_Some (map ?st) |- _ => destruct H as [? ->]; simpl; eauto
              end ]).
Qed.

Lemma loaded_step cs st i : loaded cs st → loaded cs (step st i).
Proof.
  intros (Hdata & Hls & Hmap). unfold loaded, step, exec.
  rewrite (preserves_perform combinationsData i st). split; [done|].
  pose proof (perform_keeps_layerFeatures i st) as Hl.
  unfold layerFeatures in Hl. split.
  - destruct Hls as [ls Hls]. rewrite Hls in Hl.
    destruct (statesLayer (perform i st).2); [eauto | done].
  - by apply (perform_keeps_map i).
Qed.

(* ===================================================================== *)
(** ** The list pane of a started page                                    *)
(* ===================================================================== *)

(** *** Marking rows *)

Lemma markFirst_absent i b rows :
  i ∉ row_index <$> rows → markFirst i b rows = rows.
Proof.
  induction rows as [|r rows IH]; csimpl; [done|].
  intros Hi. apply not_elem_of_cons in Hi as [Hne Hi].
  rewrite bool_decide_false by done. by rewrite IH.
Qed.

Lemma createComboItem_other i j c :
  i ≠ j → createComboItem (Some i) c j = createComboItem None c j.
Proof.
  intros Hij. unfold createComboItem. f_equal.
  rewrite !bool_decide_false; [done|done|]. by intros [= ->].
Qed.

Lemma rendered_unselected i (l : list (nat * Combo)) :
  i ∉ l.*1 →
  (λ ic : nat * Combo, createComboItem (Some i) ic.2 ic.1) <$> l =
  (λ ic : nat * Combo, createComboItem None ic.2 ic.1) <$> l.
Proof.
  intros Hi. apply list_fmap_ext. intros k [j c] Hk. simpl.
  apply createComboItem_other. intros ->. apply Hi.
  apply list_elem_of_fmap. exists (j, c). split; [done|].
  by eapply list_elem_of_lookup_2.
Qed.

Lemma unmark_rendered p (l : list (nat * Combo)) :
  NoDup l.*1 →
  markFirst p false ((λ ic : nat * Combo, createComboItem (Some p) ic.2 ic.1) <$> l) =
  (λ ic : nat * Combo, createComboItem None ic.2 ic.1) <$> l.
Proof.
  induction l as [|[j c] l IH]; csimpl; [done|].
  intros [Hj Hl]%NoDup_cons. case_bool_decide as Hjp.
  - subst j. by rewrite rendered_unselected by done.
  - rewrite IH by done. f_equal. by apply createComboItem_other.
Qed.

Lemma mark_rendered i (l : list (nat * Combo)) :
  NoDup l.*1 →
  markFirst i true ((λ ic : nat * Combo, createComboItem None ic.2 ic.1) <$> l) =
  (λ ic : nat * Combo, createComboItem (Some i) ic.2 ic.1) <$> l.
Proof.
  induction l as [|[j c] l IH]; csimpl; [done|].
  intros [Hj Hl]%NoDup_cons. case_bool_decide as Hji.
  - subst j. rewrite rendered_unselected by done.
    f_equal. unfold createComboItem. simpl. by rewrite bool_decide_true.
  - rewrite IH by done. f_equal. symmetry. by apply createComboItem_other.
Qed.

Lemma unmark_prev_rendered prev (l : list (nat * Combo)) :
  NoDup l.*1 →
  match prev with
  | Some p => markFirst p false
                ((λ ic : nat * Combo, createComboItem prev ic.2 ic.1) <$> l)
  | None => (λ ic : nat * Combo, createComboItem prev ic.2 ic.1) <$> l
  end = (λ ic : nat * Combo, createComboItem None ic.2 ic.1) <$> l.
Proof. intros Hl. destruct prev as [p|]; [by apply unmark_rendered | done]. Qed.

Lemma remark_rendered prev i (l : list (nat * Combo)) :
  NoDup l.*1 →
  remarkRows prev i ((λ ic : nat * Combo, createComboItem prev ic.2 ic.1) <$> l) =
  (λ ic : nat * Combo, createComboItem (Some i) ic.2 ic.1) <$> l.
Proof.
  intros Hl. unfold remarkRows. rewrite unmark_prev_rendered by done.
  by apply mark_rendered.
Qed.

Lemma indexed_fst {A} (xs : list A) : (indexed xs).*1 = seq 0 (length xs).
Proof.
  unfold indexed. rewrite fmap_imap.
  rewrite <-(list_fmap_id (seq 0 (length xs))).
  rewrite <-(imap_seq_0 xs id). by apply imap_ext.
Qed.

Lemma shown_NoDup sel cs n : NoDup (take n (filterCombinations sel cs)).*1.
Proof.
  apply (sublist_NoDup _ (indexed cs).*1).
  - rewrite indexed_fst. apply NoDup_seq.
  - apply fmap_sublist. etrans; [apply sublist_take|]. apply sublist_filter.
Qed.

Lemma shown_index sel cs n i :
  i ∈ (take n (filterCombinations sel cs)).*1 → is_Some (cs !! i).
Proof.
  intros ([j c] & -> & Hjc)%list_elem_of_fmap. simpl.
  apply elem_of_take in Hjc as (k & Hk%list_elem_of_lookup_2 & _).
  apply elem_of_filterCombinations in Hk as [Hk _]. eauto.
Qed.

(** *** The list pane after selecting and after clearing the selection *)

Lemma listShows_selectCombination cs st idx :
  loaded cs st → listShows cs st → listShows cs (exec (selectCombination idx) st).
Proof.
  intros ((data & Hdata & Hcs) & [ls Hls] & _) [Hrows Hhead].
  unfold exec. destruct (cs !! idx) as [c|] eqn:Hc.
  - destruct (selectCombination_run st ls data cs idx c Hls Hdata Hcs Hc)
      as (st' & -> & _ & _ & Hidx & Hsel & Hrows' & Hhead' & _).
    simpl. unfold listShows, renderedRows, renderedHeader.
    rewrite Hrows', Hhead', Hidx, Hsel, Hrows, Hhead. split; [|done].
    apply remark_rendered, shown_NoDup.
  - (* an index out of the array: no row carries it *)
    unfold selectCombination. rewrite bind_run. simpl.
    destruct (unselect_run st ls Hls) as (st1 & Hrun1 & Hls1 & Hmap1 & Hoff1).
    rewrite (bind_normal _ _ _ _ _ Hrun1).
    assert (Hview1 : listView st1 =
        ((λ ic : nat * Combo, createComboItem None ic.2 ic.1)
           <$> take 500 (filterCombinations (selectedStates st) cs),
         listHeader (page st), selectedStates st, selectedComboIndex st)).
    { unfold offMap in Hoff1. simpl in Hoff1. unfold listView.
      injection Hoff1 as _ _ -> -> _ _ ->. simpl. rewrite Hrows.
      unfold renderedRows. by rewrite unmark_prev_rendered by apply shown_NoDup. }
    assert (Hdata1 : combinationsData st1 = Some data).
    { unfold offMap in Hoff1. simpl in Hoff1. congruence. }
    unfold listView in Hview1. injection Hview1 as Hrows1 Hhead1 Hsel1 _.
    js_run. rewrite Hdata1. js_run. rewrite Hcs. js_run. rewrite Hc.
    unfold eachLayer, forEach. js_run. rewrite Hls1. js_run.
    unfold listShows, renderedRows, renderedHeader.
    destruct (resetLayers (selectedComboIndex st) ls) as [|x xs]; js_run;
      rewrite ?Hrows1, Hhead1, Hsel1, Hhead; (split; [|done]).
    + by rewrite mark_rendered by apply shown_NoDup.
    + symmetry. apply rendered_unselected.
      intros Hin%shown_index. rewrite Hc in Hin. by destruct Hin.
Qed.

Lemma listShows_clearSelection cs st :
  listShows cs st → listShows cs (exec clearSelection st).
Proof.
  intros [Hrows Hhead]. unfold exec, clearSelection. rewrite bind_run. simpl.
  assert (Htail : preserves listView
    (resetMapStyles ;; highlightFilteredStates ;;
     modify (on_page (λ p,
       set_selectedInfo {| si_hidden := true; si_states := si_states (selectedInfo p);
                           si_area := si_area (selectedInfo p) |} p)) ;;
     mapFitBounds AllStates)).
  { repeat autounfold with js. frame_by unchanged. }
  assert (Hgoal : ∀ st2,
    listView st2 =
      ((λ ic : nat * Combo, createComboItem None ic.2 ic.1)
         <$> take 500 (filterCombinations (selectedStates st) cs),
       listHeader (page st), selectedStates st, None) →
    listShows cs
      ((resetMapStyles ;; highlightFilteredStates ;;
        modify (on_page (λ p,
          set_selectedInfo {| si_hidden := true; si_states := si_states (selectedInfo p);
                              si_area := si_area (selectedInfo p) |} p)) ;;
        mapFitBounds AllStates) st2).2).
  { intros st2 Hview. pose proof (Htail st2) as HT.
    unfold listView in HT, Hview.
    injection HT as HT1 HT2 HT3 HT4. injection Hview as Hv1 Hv2 Hv3 Hv4.
    unfold listShows, renderedRows, renderedHeader.
    rewrite HT1, HT2, HT3, HT4, Hv1, Hv2, Hv3, Hv4, Hhead. done. }
  destruct (selectedComboIndex st) as [p|] eqn:Hp.
  - rewrite bind_run. simpl. rewrite bind_run. simpl.
    apply Hgoal. unfold listView. simpl. rewrite Hrows.
    unfold renderedRows. rewrite Hp.
    by rewrite unmark_rendered by apply shown_NoDup.
  - rewrite bind_run. simpl. rewrite bind_run. simpl.
    apply Hgoal. unfold listView. simpl. rewrite Hrows.
    unfold renderedRows. by rewrite Hp.
Qed.

Lemma listShows_addStateFilter_any cs st s :
  loaded cs st → listShows cs st → listShows cs (exec (addStateFilter s) st).
Proof.
  intros ((data & Hdata & Hcs) & _) Hlist.
  destruct (decide (s ∈ selectedStates st)) as [Hin|Hout].
  - eapply listShows_listView; [|exact Hlist].
    unfold exec, addStateFilter. js_run.
    unfold arrayIncludes. by rewrite bool_decide_true by done.
  - by eapply listShows_addStateFilter.
Qed.

Lemma layerAt_reads t : preserves (λ st, st) (layerAt t).
Proof. unfold layerAt. frame_by unchanged. Qed.

Lemma perform_beside_list i :
  besideList i = true → preserves listView (perform i).
Proof.
  destruct i; simpl; try discriminate; intros _;
    repeat autounfold with js; frame_by unchanged.
Qed.

Lemma listShows_step cs st i :
  loaded cs st → listShows cs st → listShows cs (step st i).
Proof.
  intros Hloaded Hlist. pose proof Hloaded as ((data & Hdata & Hcs) & _).
  destruct (besideList i) eqn:Hi.
  { eapply listShows_listView; [|exact Hlist].
    apply (perform_beside_list i Hi). }
  unfold step. destruct i; simpl in *; try discriminate.
  - by eapply listShows_renderCombinations.
  - by apply listShows_addStateFilter_any.
  - by eapply listShows_removeStateFilter.
  - by eapply listShows_onClearSearch.
  - by apply listShows_selectCombination.
  - by apply listShows_clearSelection.
  - (* a click on the map *)
    unfold exec, handleStateClick. rewrite bind_run.
    pose proof (layerAt_reads t st) as Hst.
    destruct (layerAt t st) as [[layer|e] st1]; simpl in *; subst st1; [|done].
    by apply listShows_addStateFilter_any.
  - (* a key in the search field *)
    unfold exec, onSearchKeyDown. js_run. case_bool_decide; [done|]. js_run.
    destruct key; js_run; try done.
    case_bool_decide; [|done]. simpl. rewrite bind_run.
    destruct (dd_items (searchDropdown (page st)) !! Z.to_nat (highlightedIndex st));
      simpl; [|done].
    by apply listShows_addStateFilter_any.
Qed.



(** [selectCombination] on an index of the loaded array runs to its end.
    It records the index, gives the selected style to the layers of the
    states of that combination and to no other (every layer being first
    reset to the default style when there was a selection), shows the states
    and the area of the combination in the info panel, moves the mark in the
    list from the previous row to the row of the index, schedules the fit of
    the map to the layers of the combination when there are any, and on a
    narrow window switches to the map tab.  The filter is not changed. *)
Theorem selectCombination_highlights_members :
  ∀ (st : Viewer) (ls : list Layer) (data : CombinationsData) (cs : list Combo)
    (idx : nat) (c : Combo),
    statesLayer st = Some ls →
    combinationsData st = Some data →
    combinations data = Some cs →
    cs !! idx = Some c →
    let st' := exec (selectCombination idx) st in
    outcome (selectCombination idx) st = Normal tt ∧
    selectedComboIndex st' = Some idx ∧
    statesLayer st' = Some (selectLayer c <$> resetLayers (selectedComboIndex st) ls) ∧
    selectedInfo (page st') =
      {| si_hidden := false; si_states := Some (states c);
         si_area := Some (total_km2 c) |} ∧
    combinationsList (page st') =
      remarkRows (selectedComboIndex st) idx (combinationsList (page st)) ∧
    timers (page st') =
      timers (page st) ++
      (if bool_decide (0 < length (layersOf c ls))%nat
       then [(100%nat, FitSelected (layersOf c ls))] else []) ∧
    layout (page st') = layoutAfterSelect (length (layersOf c ls)) (page st) ∧
    selectedStates st' = selectedStates st.
Proof.
  intros st ls data cs idx c Hls Hdata Hcs Hc st'. subst st'. unfold exec, outcome.
  destruct (selectCombination_run st ls data cs idx c Hls Hdata Hcs Hc)
    as (st' & -> & Hls' & _ & Hidx & Hsel & Hrows & _ & Hinfo & Htimers & Hlayout).
  simpl. by split_and!.
Qed.

Lemma selectCombination_highlights_members_witness :
  (λ l : Layer, (name (feature l), fillColor (options l)))
    <$> default [] (statesLayer (exec (selectCombination 2) sampleViewer)) =
  [("Texas", "#e94560"); ("Oklahoma", "#1a4670"); ("New Mexico", "#e94560");
   ("Kansas", "#1a4670"); ("Colorado", "#1a4670")] ∧
  selectedComboIndex (exec (selectCombination 2) sampleViewer) = Some 2%nat.
Proof.
  split; [by vm_compute|].
  apply (selectCombination_highlights_members sampleViewer
           (default [] (statesLayer sampleViewer)) sampleData
           (default [] (combinations sampleData))
           2 {| states := ["Texas"; "New Mexico"]; total_km2 := 1010579 |});
    by vm_compute.
Defined.

(** *** An index outside the loaded array *)

Lemma selectCombination_invalid_run st x ls data cs idx :
  statesLayer st = Some (x :: ls) →
  combinationsData st = Some data → combinations data = Some cs →
  cs !! idx = None →
  ∃ st',
    selectCombination idx st = (Throw TypeError, st') ∧
    selectedComboIndex st' = Some idx ∧
    combinationsData st' = Some data ∧
    statesLayer st' = Some (resetLayers (selectedComboIndex st) (x :: ls)) ∧
    selectedInfo (page st') = selectedInfo (page st).
Proof.
  intros Hls Hdata Hcs Hc. unfold selectCombination. rewrite bind_run. simpl.
  destruct (unselect_run st (x :: ls) Hls) as (st1 & Hrun1 & Hls1 & Hmap1 & Hoff1).
  rewrite (bind_normal _ _ _ _ _ Hrun1).
  assert (Hdata1 : combinationsData st1 = Some data).
  { unfold offMap in Hoff1. simpl in Hoff1. congruence. }
  assert (Hinfo1 : selectedInfo (page st1) = selectedInfo (page st)).
  { unfold offMap in Hoff1. simpl in Hoff1. injection Hoff1 as _ _ _ _ _ _ ->. done. }
  js_run. rewrite Hdata1. js_run. rewrite Hcs. js_run. rewrite Hc.
  unfold eachLayer, forEach. js_run. rewrite Hls1.
  assert (∃ y ys, resetLayers (selectedComboIndex st) (x :: ls) = y :: ys)
    as (y & ys & Hy).
  { unfold resetLayers. destruct (selectedComboIndex st); csimpl; eauto. }
  rewrite Hy. js_run. eexists. split; [reflexivity|]. simpl.
  split_and!; try done. by rewrite Hls1, Hy.
Qed.

(** [selectCombination] on an index outside the loaded array, with states on
    the map, throws a [TypeError] at the first layer, after it has recorded
    the index: the selection then points outside the array, no layer has
    been given the selected style, the info panel is as it was, and from then
    on every mouse-over and mouse-out on the map throws as well. *)
Theorem selectCombination_outside_array_throws :
  ∀ (st : Viewer) (x : Layer) (ls : list Layer) (data : CombinationsData)
    (cs : list Combo) (idx : nat),
    statesLayer st = Some (x :: ls) →
    combinationsData st = Some data →
    combinations data = Some cs →
    cs !! idx = None →
    let st' := exec (selectCombination idx) st in
    outcome (selectCombination idx) st = Throw TypeError ∧
    selectedComboIndex st' = Some idx ∧
    statesLayer st' = Some (resetLayers (selectedComboIndex st) (x :: ls)) ∧
    selectedInfo (page st') = selectedInfo (page st) ∧
    (∀ t, handleStateHover t st' = (Throw TypeError, st') ∧
          handleStateOut t st' = (Throw TypeError, st')).
Proof.
  intros st x ls data cs idx Hls Hdata Hcs Hc st'. subst st'. unfold exec, outcome.
  destruct (selectCombination_invalid_run st x ls data cs idx Hls Hdata Hcs Hc)
    as (st' & -> & Hidx & Hdata' & Hls' & Hinfo).
  simpl. split_and!; try done.
  intros t. unfold handleStateHover, handleStateOut, layerAt, inSelectedCombination.
  js_run. rewrite Hls'. js_run.
  destruct (resetLayers (selectedComboIndex st) (x :: ls) !! t); js_run; [|done].
  rewrite Hidx. js_run. rewrite Hdata'. js_run. rewrite Hcs. js_run. by rewrite Hc.
Qed.

Lemma selectCombination_outside_array_throws_witness :
  outcome (selectCombination 7) sampleViewer = Throw TypeError ∧
  selectedComboIndex (exec (selectCombination 7) sampleViewer) = Some 7%nat.
Proof.
  destruct (selectCombination_outside_array_throws sampleViewer
           {| feature := {| name := "Texas" |};
              options := mergeStyle defaultStyle pathDefaults |}
           (tail (default [] (statesLayer sampleViewer))) sampleData
           (default [] (combinations sampleData)) 7) as (H1 & H2 & _);
    [by vm_compute..|].
  split; [exact H1 | exact H2].
Defined.

(** *** Styles *)

Lemma mergeStyle_default o :
  mergeStyle defaultStyle o = mergeStyle defaultStyle pathDefaults.
Proof. reflexivity. Qed.

Lemma setStyle_default l : setStyle defaultStyle l = newLayer (feature l).
Proof. reflexivity. Qed.

(** [highlightFilteredStates], when the layers exist, runs to its end and
    restyles layer by layer: a layer of a filter state gets the filter style
    merged over its style; any other layer gets the default style when no
    combination is selected and is left as it is when one is selected (so a
    state taken out of the filter while a combination is selected keeps its
    highlight).  Nothing else changes.  Without layers it throws. *)
Theorem highlightFilteredStates_styles :
  ∀ (st : Viewer),
    (statesLayer st = None →
       highlightFilteredStates st = (Throw TypeError, st)) ∧
    (∀ ls, statesLayer st = Some ls →
       let st' := exec highlightFilteredStates st in
       outcome highlightFilteredStates st = Normal tt ∧
       map st' = map st ∧ offMap st' = offMap st ∧
       ∃ ls', statesLayer st' = Some ls' ∧ length ls' = length ls ∧
         ∀ k l, ls !! k = Some l →
           ∃ l', ls' !! k = Some l' ∧ feature l' = feature l ∧
             (name (feature l) ∈ selectedStates st →
                options l' = mergeStyle filterStyle (options l)) ∧
             (name (feature l) ∉ selectedStates st → selectedComboIndex st = None →
                options l' = mergeStyle defaultStyle pathDefaults) ∧
             (name (feature l) ∉ selectedStates st → is_Some (selectedComboIndex st) →
                l' = l)).
Proof.
  intros st. split.
  - intros Hls. unfold highlightFilteredStates. by apply eachLayer_undefined.
  - intros ls Hls st'. subst st'. unfold exec, outcome.
    destruct (highlightFilteredStates_run st ls Hls) as (st' & -> & Hls' & Hmap & Hoff).
    simpl. split_and!; try done.
    eexists. split; [exact Hls'|]. split; [by rewrite length_fmap|].
    intros k l Hk. eexists. rewrite list_lookup_fmap, Hk. split; [done|].
    split; [apply highlightLayer_feature|]. unfold highlightLayer, arrayIncludes.
    split_and!.
    + intros Hin. by rewrite bool_decide_true.
    + intros Hout ->. by rewrite bool_decide_false.
    + intros Hout [j ->]. by rewrite bool_decide_false.
Qed.

Lemma highlightFilteredStates_styles_witness :
  (λ l : Layer, (name (feature l), fillColor (options l)))
    <$> default [] (statesLayer (run [Select 2; AddFilter "Kansas"; AddFilter "Texas";
                                      RemoveFilter "Kansas"] sampleViewer)) =
  [("Texas", "#4cc9f0"); ("Oklahoma", "#1a4670"); ("New Mexico", "#e94560");
   ("Kansas", "#4cc9f0"); ("Colorado", "#1a4670")] ∧
  outcome highlightFilteredStates sampleViewer = Normal tt.
Proof.
  split; [by vm_compute|].
  apply (proj2 (highlightFilteredStates_styles sampleViewer)
           (default [] (statesLayer sampleViewer))).
  by vm_compute.
Defined.

(** *** Clearing the selection *)

Lemma clear_tail_run st ls m :
  statesLayer st = Some ls → map st = Some m → selectedComboIndex st = None →
  ∃ st',
    (resetMapStyles ;; highlightFilteredStates ;;
     modify (on_page (λ p,
       set_selectedInfo {| si_hidden := true; si_states := si_states (selectedInfo p);
                           si_area := si_area (selectedInfo p) |} p)) ;;
     mapFitBounds AllStates) st = (Normal tt, st') ∧
    statesLayer st' =
      Some (highlightLayer (selectedStates st) None <$> (setStyle defaultStyle <$> ls)) ∧
    map st' = Some {| view := AllStates; paintOrder := paintOrder m |} ∧
    selectedComboIndex st' = None ∧
    selectedStates st' = selectedStates st ∧
    combinationsData st' = combinationsData st ∧
    page st' =
      set_selectedInfo {| si_hidden := true;
                          si_states := si_states (selectedInfo (page st));
                          si_area := si_area (selectedInfo (page st)) |} (page st).
Proof.
  intros Hls Hmap Hidx.
  destruct (resetMapStyles_run st ls Hls) as (st1 & Hrun1 & Hls1 & Hmap1 & Hoff1).
  rewrite (bind_normal _ _ _ _ _ Hrun1).
  destruct (highlightFilteredStates_run st1 _ Hls1) as (st2 & Hrun2 & Hls2 & Hmap2 & Hoff2).
  rewrite (bind_normal _ _ _ _ _ Hrun2).
  unfold offMap in Hoff1, Hoff2.
  injection Hoff1 as Hg1 Hd1 Hi1 Hs1 Hn1 Hh1 Hp1.
  injection Hoff2 as Hg2 Hd2 Hi2 Hs2 Hn2 Hh2 Hp2.
  unfold mapFitBounds. js_run. rewrite Hmap2, Hmap1, Hmap. js_run.
  eexists. split; [reflexivity|]. simpl.
  rewrite Hls2, Hs1, Hi1, Hidx, Hi2, Hi1, Hidx, Hs2, Hs1, Hd2, Hd1, Hp2, Hp1.
  by split_and!.
Qed.

Lemma clearSelection_run st ls m :
  statesLayer st = Some ls → map st = Some m →
  ∃ st',
    clearSelection st = (Normal tt, st') ∧
    statesLayer st' =
      Some (highlightLayer (selectedStates st) None <$> (setStyle defaultStyle <$> ls)) ∧
    map st' = Some {| view := AllStates; paintOrder := paintOrder m |} ∧
    selectedComboIndex st' = None ∧
    selectedStates st' = selectedStates st ∧
    combinationsData st' = combinationsData st ∧
    si_hidden (selectedInfo (page st')) = true ∧
    combinationsList (page st') =
      match selectedComboIndex st with
      | Some p => markFirst p false (combinationsList (page st))
      | None => combinationsList (page st)
      end ∧
    listHeader (page st') = listHeader (page st).
Proof.
  intros Hls Hmap. unfold clearSelection. rewrite bind_run. simpl.
  destruct (selectedComboIndex st) as [p|] eqn:Hp.
  - rewrite bind_run. simpl. rewrite bind_run. simpl.
    edestruct (clear_tail_run
                 (set_selectedComboIndex None
                    (on_page (λ q, set_combinationsList
                                     (markFirst p false (combinationsList q)) q) st))
                 ls m) as (st' & Hrun & Hls' & Hmap' & Hidx & Hsel & Hdata & Hpage);
      [done..|].
    exists st'. rewrite Hrun, Hpage. by split_and!.
  - rewrite bind_run. simpl. rewrite bind_run. simpl.
    edestruct (clear_tail_run (set_selectedComboIndex None st) ls m)
      as (st' & Hrun & Hls' & Hmap' & Hidx & Hsel & Hdata & Hpage); [done..|].
    exists st'. rewrite Hrun, Hpage. by split_and!.
Qed.



(* ===================================================================== *)
(** ** The filter pane                                                    *)
(* ===================================================================== *)

Lemma forEachFrom_tags (xs : list string) i st :
  forEachFrom i xs (λ _ state,
    modify (on_page (λ p, set_selectedFilters (selectedFilters p ++ [state]) p))) st =
  (Normal tt, on_page (λ p, set_selectedFilters (selectedFilters p ++ xs) p) st).
Proof.
  revert i st. induction xs as [|x xs IH]; intros i st; simpl.
  - destruct st as [? ? ? ? ? ? ? ? []]. unfold on_page, set_page, set_selectedFilters.
    simpl. by rewrite app_nil_r.
  - js_run. rewrite IH. f_equal.
    destruct st as [? ? ? ? ? ? ? ? []]. unfold on_page, set_page, set_selectedFilters.
    simpl. by rewrite <-app_assoc.
Qed.

Lemma filterPaneShows_view st1 st2 :
  filterView st2 = filterView st1 → filterPaneShows st1 → filterPaneShows st2.
Proof.
  unfold filterView, filterPaneShows. intros [= -> -> ->]. done.
Qed.

(** The table of areas is not to be unfolded while stepping through
    [updateFilterTotal]. *)
Opaque stateAreas.

Lemma renderFilterTags_shows st : filterPaneShows (renderFilterTags st).2.
Proof.
  unfold renderFilterTags. js_run. unfold forEach. rewrite forEachFrom_tags. js_run.
  unfold updateFilterTotal. js_run. unfold filterPaneShows, areaOf.
  destruct (selectedStates st) as [|s sel] eqn:Hsel; simpl; by rewrite ?Hsel.
Qed.

Transparent stateAreas.

Lemma filterPane_rerender st :
  filterPaneShows
    ((renderFilterTags ;; renderCombinations ;; highlightFilteredStates) st).2.
Proof.
  destruct (bind_total_run renderFilterTags
              (λ _, renderCombinations ;; highlightFilteredStates) st
              total_renderFilterTags) as [[] ->].
  eapply filterPaneShows_view; [|apply (renderFilterTags_shows st)].
  assert (H : preserves filterView (renderCombinations ;; highlightFilteredStates)).
  { repeat autounfold with js. frame_by unchanged. }
  apply H.
Qed.

Lemma filterPane_removeStateFilter st s : filterPaneShows (exec (removeStateFilter s) st).
Proof. apply filterPane_rerender. Qed.

Lemma filterPane_onClearSearch st : filterPaneShows (exec onClearSearch st).
Proof. apply filterPane_rerender. Qed.

Lemma filterPane_addStateFilter st s :
  s ∉ selectedStates st ∨ filterPaneShows st →
  filterPaneShows (exec (addStateFilter s) st).
Proof.
  intros H. unfold exec, addStateFilter. rewrite bind_run. simpl.
  assert (Htail : ∀ b : unit, preserves filterView
            (modify (on_page (set_stateSearch "")) ;; hideDropdown)).
  { intros _. repeat autounfold with js. frame_by unchanged. }
  eapply filterPaneShows_view; [apply (proj_bind_preserved filterView _ _ _ Htail)|].
  unfold arrayIncludes. case_bool_decide as Hin; simpl.
  - by destruct H.
  - apply filterPane_rerender.
Qed.

Lemma perform_beside_filter i :
  besideFilter i = true → preserves filterView (perform i).
Proof.
  destruct i; simpl; try discriminate; intros _;
    repeat autounfold with js; frame_by unchanged.
Qed.

Lemma filterPane_step st i : filterPaneShows st → filterPaneShows (step st i).
Proof.
  intros Hst. destruct (besideFilter i) eqn:Hi.
  { eapply filterPaneShows_view; [|exact Hst]. apply (perform_beside_filter i Hi). }
  unfold step. destruct i; simpl in *; try discriminate.
  - apply filterPane_addStateFilter. by right.
  - apply filterPane_removeStateFilter.
  - apply filterPane_onClearSearch.
  - unfold exec, handleStateClick. rewrite bind_run.
    pose proof (layerAt_reads t st) as Ht.
    destruct (layerAt t st) as [[layer|e] st1]; simpl in *; subst st1; [|done].
    apply filterPane_addStateFilter. by right.
  - unfold exec, onSearchKeyDown. js_run. case_bool_decide; [done|]. js_run.
    destruct key; js_run; try done.
    case_bool_decide; [|done]. simpl. rewrite bind_run.
    destruct (dd_items (searchDropdown (page st)) !! Z.to_nat (highlightedIndex st));
      simpl; [|done].
    apply filterPane_addStateFilter. by right.
Qed.



(* ===================================================================== *)
(** ** The layers after loading                                           *)
(* ===================================================================== *)

(** No operation of the viewer adds, removes, reorders or renames a layer:
    the features drawn on the map, in the order of their layers, are the
    same after any sequence of operations (only styles change), and a page
    without layers stays without. *)
Theorem layers_are_only_restyled :
  ∀ (st : Viewer) (intents : list Intent),
    layerFeatures (run intents st) = layerFeatures st.
Proof.
  intros st intents. apply preserves_run. apply perform_keeps_layerFeatures.
Qed.

(* ===================================================================== *)
(** ** Filters compared                                                   *)
(* ===================================================================== *)

Lemma filter_sublist_impl {A} (P Q : A → Prop)
    `{!∀ x, Decision (P x)} `{!∀ x, Decision (Q x)} (xs : list A) :
  (∀ x, P x → Q x) → filter P xs `sublist_of` filter Q xs.
Proof.
  intros HPQ. induction xs as [|x xs IH]; [done|].
  rewrite !filter_cons. destruct (decide (P x)) as [HP|HP].
  - rewrite decide_True by auto. by apply sublist_skip.
  - destruct (decide (Q x)); [by apply sublist_cons | done].
Qed.

(** The filter only looks at which states are selected, and selecting more
    states keeps fewer combinations: when every state of [sel] is in [sel'],
    the combinations kept under [sel'] are among those kept under [sel], in
    the same order, so the count in the header cannot grow when a state is
    added; and two filter lists with the same states, in any order and
    multiplicity, keep the same combinations. *)
Theorem filter_is_monotone :
  ∀ (cs : list Combo) (sel sel' : list string),
    ((∀ s, s ∈ sel → s ∈ sel') →
       filterCombinations sel' cs `sublist_of` filterCombinations sel cs ∧
       (length (filterCombinations sel' cs) ≤ length (filterCombinations sel cs))%nat) ∧
    ((∀ s, s ∈ sel ↔ s ∈ sel') →
       filterCombinations sel' cs = filterCombinations sel cs).
Proof.
  intros cs sel sel'. split.
  - intros Hsub.
    assert (Hsl : filterCombinations sel' cs `sublist_of` filterCombinations sel cs).
    { unfold filterCombinations. apply filter_sublist_impl. intros [i c]. simpl.
      rewrite !Is_true_true, !passesFilter_true. auto. }
    split; [done|]. by apply sublist_length.
  - intros Heq. unfold filterCombinations. apply list_filter_iff. intros [i c]. simpl.
    rewrite !Is_true_true, !passesFilter_true. split; intros H s Hs; apply H, Heq, Hs.
Qed.

Lemma filter_is_monotone_witness :
  filterCombinations ["Texas"; "Oklahoma"] (default [] (combinations sampleData))
    `sublist_of` filterCombinations ["Texas"] (default [] (combinations sampleData)).
Proof.
  apply (proj1 (filter_is_monotone (default [] (combinations sampleData))
                  ["Texas"] ["Texas"; "Oklahoma"])).
  intros s ->%list_elem_of_singleton. left.
Defined.

(* ===================================================================== *)
(** ** Keys and typing in the search field                                *)
(* ===================================================================== *)

Lemma updateDropdownHighlight_run st :
  updateDropdownHighlight st =
  (Normal tt,
   on_page (λ p, set_searchDropdown
     {| dd_items := highlightAt (highlightedIndex st) (dd_items (searchDropdown p));
        dd_hidden := dd_hidden (searchDropdown p) |} p) st).
Proof. reflexivity. Qed.

Lemma highlightAt_lookup hi items k it' :
  highlightAt hi items !! k = Some it' →
  ∃ it, items !! k = Some it ∧ item_text it' = item_text it ∧
        (item_highlighted it' = true ↔ Z.of_nat k = hi).
Proof.
  unfold highlightAt. rewrite list_lookup_imap.
  destruct (items !! k) as [it|]; simpl; [|done]. intros [= <-].
  exists it. simpl. by rewrite bool_decide_eq_true.
Qed.

Lemma highlightAt_text hi items : item_text <$> highlightAt hi items = item_text <$> items.
Proof.
  unfold highlightAt. apply list_eq. intros k.
  rewrite !list_lookup_fmap, list_lookup_imap. by destruct (items !! k).
Qed.

(** With entries in the dropdown and the highlight on one of them or on none
    (-1), the arrow keys move the highlight by one and stop at the ends: down
    to min(hi + 1, n - 1), up to max(hi - 1, 0).  Afterwards the highlight is
    on an entry, that entry carries the class and no other does, and the
    entries, their order, the visibility of the dropdown and the filter are
    as before.  With no entry in the dropdown a key does nothing. *)
Theorem arrow_keys_move_highlight :
  ∀ (st : Viewer) (key : Key),
    let items := dd_items (searchDropdown (page st)) in
    let n := Z.of_nat (length items) in
    let hi := highlightedIndex st in
    (items = [] → onSearchKeyDown key st = (Normal tt, st)) ∧
    (key = ArrowDown ∨ key = ArrowUp → items ≠ [] → -1 ≤ hi < n →
       let st' := exec (onSearchKeyDown key) st in
       let items' := dd_items (searchDropdown (page st')) in
       outcome (onSearchKeyDown key) st = Normal tt ∧
       highlightedIndex st' =
         match key with
         | ArrowDown => Z.min (hi + 1) (n - 1)
         | _ => Z.max (hi - 1) 0
         end ∧
       0 ≤ highlightedIndex st' < n ∧
       item_text <$> items' = item_text <$> items ∧
       (∀ k it, items' !! k = Some it →
          item_highlighted it = true ↔ Z.of_nat k = highlightedIndex st') ∧
       dd_hidden (searchDropdown (page st')) = dd_hidden (searchDropdown (page st)) ∧
       selectedStates st' = selectedStates st).
Proof.
  intros st key items n hi. split.
  - intros Hnil. unfold onSearchKeyDown. js_run. fold items. by rewrite Hnil.
  - intros Hkey Hne Hhi st' items'. subst st' items'.
    unfold exec, outcome, onSearchKeyDown. js_run. fold items.
    rewrite bool_decide_false by (by destruct items).
    assert (0 < n) by (subst n; destruct items; [done | simpl; lia]).
    js_run. destruct Hkey as [-> | ->]; js_run; fold items; fold hi; fold n.
    + split_and!; try done; try lia.
      * apply highlightAt_text.
      * intros k it Hk. apply highlightAt_lookup in Hk as (it0 & _ & _ & Hk). done.
    + split_and!; try done; try lia.
      * apply highlightAt_text.
      * intros k it Hk. apply highlightAt_lookup in Hk as (it0 & _ & _ & Hk). done.
Qed.

Lemma arrow_keys_move_highlight_witness :
  highlightedIndex (run [Typeahead "a"; KeyDown ArrowDown; KeyDown ArrowDown;
                         KeyDown ArrowUp; KeyDown ArrowUp; KeyDown ArrowUp]
                        sampleViewer) = 0 ∧
  dd_items (searchDropdown (page (exec (onSearchKeyDown ArrowDown)
                                       (run [Typeahead "a"] sampleViewer)))) =
  [ {| item_text := "Colorado"; item_highlighted := true |};
    {| item_text := "Kansas"; item_highlighted := false |};
    {| item_text := "Oklahoma"; item_highlighted := false |};
    {| item_text := "Texas"; item_highlighted := false |} ] ∧
  highlightedIndex (exec (onSearchKeyDown ArrowDown) (run [Typeahead "a"] sampleViewer))
    = 0.
Proof.
  split; [by vm_compute|]. split; [by vm_compute|].
  destruct (proj2 (arrow_keys_move_highlight (run [Typeahead "a"] sampleViewer) ArrowDown))
    as (_ & H & _); [by left | by vm_compute | by vm_compute |].
  rewrite H. by vm_compute.
Defined.

(** Enter in the search field.  With the highlight on an entry of the
    dropdown, Enter does what a click on that entry does: [addStateFilter]
    with its text.  With no entry highlighted (-1) it does nothing.  With
    the highlight beyond the last entry it throws, and nothing has changed.
    Escape hides the dropdown and sets the highlight to -1. *)
Theorem enter_adds_highlighted_entry :
  ∀ (st : Viewer),
    let items := dd_items (searchDropdown (page st)) in
    let hi := highlightedIndex st in
    items ≠ [] →
    (∀ it, 0 ≤ hi → items !! Z.to_nat hi = Some it →
       onSearchKeyDown Enter st = addStateFilter (item_text it) st) ∧
    (hi < 0 → onSearchKeyDown Enter st = (Normal tt, st)) ∧
    (Z.of_nat (length items) ≤ hi →
       onSearchKeyDown Enter st = (Throw TypeError, st)) ∧
    onSearchKeyDown Escape st = hideDropdown st.
Proof.
  intros st items hi Hne.
  assert (Hlen : bool_decide (length items = 0%nat) = false).
  { apply bool_decide_false. by destruct items. }
  split_and!.
  - intros it Hhi Hit. unfold onSearchKeyDown. js_run. fold items. rewrite Hlen.
    js_run. fold hi. rewrite bool_decide_true by done. simpl.
    rewrite bind_run. by rewrite Hit.
  - intros Hhi. unfold onSearchKeyDown. js_run. fold items. rewrite Hlen.
    js_run. fold hi. by rewrite bool_decide_false by lia.
  - intros Hhi. unfold onSearchKeyDown. js_run. fold items. rewrite Hlen.
    js_run. fold hi. rewrite bool_decide_true by lia. simpl.
    rewrite bind_run. rewrite lookup_ge_None_2 by lia. done.
  - unfold onSearchKeyDown. js_run. fold items. by rewrite Hlen.
Qed.

Lemma enter_adds_highlighted_entry_witness :
  selectedStates (run [Typeahead "a"; KeyDown ArrowDown; KeyDown ArrowDown; KeyDown Enter]
                      sampleViewer) = ["Kansas"] ∧
  onSearchKeyDown Escape (run [Typeahead "a"] sampleViewer) =
    hideDropdown (run [Typeahead "a"] sampleViewer).
Proof.
  split; [by vm_compute|].
  apply (enter_adds_highlighted_entry (run [Typeahead "a"] sampleViewer)).
  by vm_compute.
Defined.

Lemma dropItemsFrom_unhighlighted hi i xs it :
  hi < 0 → it ∈ dropItemsFrom hi i xs → item_highlighted it = false.
Proof.
  intros Hhi. revert i. induction xs as [|x xs IH]; intros i; simpl.
  - intros H. by apply elem_of_nil in H.
  - intros [-> | Hit]%elem_of_cons; [|by eapply IH].
    simpl. apply bool_decide_false. lia.
Qed.


(* ===================================================================== *)
(** ** The order of the typeahead                                         *)
(* ===================================================================== *)

Lemma StronglySorted_sublist {A} (R : relation A) (l1 l2 : list A) :
  l1 `sublist_of` l2 → StronglySorted R l2 → StronglySorted R l1.
Proof.
  induction 1 as [|x l1 l2 Hsub IH|x l1 l2 Hsub IH]; intros Hs.
  - constructor.
  - apply StronglySorted_inv in Hs as [Hs Hall]. constructor; [by apply IH|].
    rewrite Forall_forall in *. intros y Hy. apply Hall.
    by eapply elem_of_sublist.
  - apply StronglySorted_inv in Hs as [Hs _]. by apply IH.
Qed.

Lemma init_allStateNames_cases geo combos st :
  allStateNames st = [] →
  allStateNames (exec (init geo combos) st) = [] ∨
  ∃ fs, allStateNames (exec (init geo combos) st) =
        merge_sort String.le (name <$> filter isLower48 fs).
Proof.
  intros Hnames. unfold exec, init. rewrite bind_run. simpl. rewrite bind_run.
  assert (∃ st0,
    when (bool_decide (innerWidth (layout (page st)) ≤ 768))
      (modify (on_page (λ p,
         set_layout {| innerWidth := innerWidth (layout p);
                       mapContainerHidden := true;
                       sidebarHidden := sidebarHidden (layout p);
                       activeTab := activeTab (layout p) |} p))) st
      = (Normal tt, st0) ∧ allStateNames st0 = []) as (st0 & -> & Hn0).
  { case_bool_decide; eexists; split; try reflexivity; done. }
  unfold initMap. rewrite bind_run. simpl. rewrite bind_run.
  set (st1 := set_map _ st0).
  pose proof (loads_keep_allStateNames geo combos st1) as Hn2.
  destruct (promiseAll _ _ st1) as [[[]|err] st2]; simpl in *; [|left; congruence].
  rewrite (proj_bind_preserved allStateNames)
    by (intros; unfold setupEventListeners; frame).
  destruct (renderStates_allStateNames st2) as [Heq|(g & fs & _ & _ & Heq)];
    unfold exec in Heq; rewrite Heq.
  - left. congruence.
  - right. by exists fs.
Qed.

Lemma started_allStateNames_sorted geo combos p intents :
  StronglySorted String.le
    (allStateNames (run intents (exec (init geo combos) (initialViewer p)))).
Proof.
  rewrite (preserves_run allStateNames) by apply (preserves_perform allStateNames).
  destruct (init_allStateNames_cases geo combos (initialViewer p) eq_refl)
    as [-> | [fs ->]].
  - constructor.
  - apply StronglySorted_merge_sort; apply _.
Qed.

(** The typeahead is alphabetical.  In every state reached from [init] the
    names of [allStateNames] are in ascending order, so after
    [showDropdown] the entries shown are in ascending order, and they are
    the first of the matching names: every matching name that is not shown
    comes after every entry that is shown. *)
Theorem dropdown_is_alphabetical :
  ∀ (geo : Fetched GeoJSON) (combos : Fetched CombinationsData) (p : Page)
    (intents : list Intent) (query : string),
    let st := run intents (exec (init geo combos) (initialViewer p)) in
    let shown := displayedEntries (exec (showDropdown query) st) in
    StronglySorted String.le (allStateNames st) ∧
    StronglySorted String.le shown ∧
    shown `prefix_of` queryMatches query st ∧
    (∀ e n, e ∈ shown → n ∈ queryMatches query st → n ∉ shown → String.le e n).
Proof.
  intros geo combos p intents query st shown.
  assert (Hsorted : StronglySorted String.le (allStateNames st))
    by apply started_allStateNames_sorted.
  assert (Hmatches : StronglySorted String.le (queryMatches query st)).
  { eapply StronglySorted_sublist; [|exact Hsorted]. apply sublist_filter. }
  assert (Hshown : shown = [] ∨ shown = take 8 (queryMatches query st)).
  { subst shown. unfold exec. rewrite showDropdown_run.
    destruct (bool_decide _ || bool_decide _).
    - left. by rewrite hideDropdown_run.
    - right. unfold displayedEntries. simpl. by rewrite dropItemsFrom_text. }
  split; [done|]. destruct Hshown as [-> | ->].
  - split_and!; [constructor | apply prefix_nil |].
    intros e n He. by apply elem_of_nil in He.
  - split_and!.
    + eapply StronglySorted_sublist; [apply sublist_take | done].
    + apply prefix_take.
    + intros e n He Hn Hout.
      rewrite <-(take_drop 8 (queryMatches query st)) in Hmatches, Hn.
      apply elem_of_app in Hn as [Hn|Hn]; [done|].
      by eapply StronglySorted_app_1_elem_of.
Qed.

(* ===================================================================== *)
(** ** The earlier revision of the list filter                            *)
(* ===================================================================== *)

Lemma startsWith_refl s : startsWith s s = true.
Proof.
  induction s as [|a s IH]; simpl; [done|].
  by rewrite bool_decide_true, IH.
Qed.

Lemma includes_refl s : includes s s = true.
Proof. destruct s; simpl; [done|]. by rewrite bool_decide_true, startsWith_refl. Qed.

Lemma existsb_elem_of {A} (f : A → bool) (xs : list A) :
  existsb f xs = true ↔ ∃ x, x ∈ xs ∧ f x = true.
Proof.
  induction xs as [|y xs IH]; simpl.
  - split; [done|]. intros (x & Hx & _). by apply elem_of_nil in Hx.
  - rewrite orb_true_iff, IH. split.
    + intros [Hy | (x & Hx & Hfx)]; [exists y | exists x]; split; auto.
      * left.
      * by right.
    + intros (x & [-> | Hx]%elem_of_cons & Hfx); [by left | right; eauto].
Qed.

Lemma row_index_rendered sel (l : list (nat * Combo)) :
  row_index <$> ((λ ic : nat * Combo, createComboItem sel ic.2 ic.1) <$> l) = l.*1.
Proof. rewrite <-list_fmap_compose. by apply list_fmap_ext. Qed.

Lemma passesSearch_true searchFilter combo :
  passesSearch searchFilter combo = true ↔
  searchFilter = "" ∨
  ∃ s, s ∈ states combo ∧ includes (toLowerCase s) searchFilter = true.
Proof.
  unfold passesSearch. case_bool_decide as Hempty.
  - split; auto.
  - rewrite existsb_elem_of. split; [auto|]. by intros [? | ?].
Qed.

(** The list filter of the earlier revision.  A combination passes exactly
    when the search string is empty or occurs in the lower-cased name of one
    of its states; the list shows at most 500 of the combinations that pass,
    in the order of the data, and the header counts all of them.  After a
    click on a state every combination with that state passes, and so does
    every combination the filter of the current revision keeps for that
    state alone; the earlier filter may keep more, since it looks for the
    name inside the names. *)
Theorem search_filter_of_earlier_revision :
  ∀ (cs : list Combo) (searchFilter : string),
    (∀ c, passesSearch searchFilter c = true ↔
          searchFilter = "" ∨
          ∃ s, s ∈ states c ∧ includes (toLowerCase s) searchFilter = true) ∧
    (∀ i c, (i, c) ∈ filterBySearch searchFilter cs ↔
            cs !! i = Some c ∧ passesSearch searchFilter c = true) ∧
    (∀ area selected,
       ∃ rows,
         renderCombinationsBySearch
           (Some {| greenland_km2 := area; combinations := Some cs |})
           selected searchFilter =
         Some (rows,
               {| sh_count := length (filterBySearch searchFilter cs);
                  sh_matching := if bool_decide (searchFilter = "") then None
                                 else Some searchFilter |}) ∧
         (length rows ≤ 500)%nat ∧
         row_index <$> rows = (take 500 (filterBySearch searchFilter cs)).*1) ∧
    (∀ stateName c,
       stateName ∈ states c → passesSearch (searchFilterOfClick stateName) c = true) ∧
    (∀ stateName i c,
       (i, c) ∈ filterCombinations [stateName] cs →
       (i, c) ∈ filterBySearch (searchFilterOfClick stateName) cs).
Proof.
  intros cs searchFilter.
  assert (Hclick : ∀ stateName c,
    stateName ∈ states c → passesSearch (searchFilterOfClick stateName) c = true).
  { intros stateName c Hin. apply passesSearch_true. right.
    exists stateName. split; [done|]. apply includes_refl. }
  assert (Hmem : ∀ f i c, (i, c) ∈ filterBySearch f cs ↔
                          cs !! i = Some c ∧ passesSearch f c = true).
  { intros f i c. unfold filterBySearch.
    rewrite list_elem_of_filter, elem_of_indexed. simpl.
    rewrite Is_true_true. tauto. }
  split_and!.
  - intros c. apply passesSearch_true.
  - apply Hmem.
  - intros area selected. eexists. unfold renderCombinationsBySearch. simpl.
    split; [reflexivity|]. rewrite take_min_length. split.
    + rewrite length_fmap, length_take. lia.
    + apply row_index_rendered.
  - apply Hclick.
  - intros stateName i c [Hi Hall]%elem_of_filterCombinations.
    apply Hmem. split; [done|]. apply Hclick, Hall. left.
Qed.

Lemma search_filter_of_earlier_revision_witness :
  passesSearch (searchFilterOfClick "Kansas")
    {| states := ["Kansas"; "Oklahoma"]; total_km2 := 394137 |} = true ∧
  passesSearch (searchFilterOfClick "Kansas")
    {| states := ["Arkansas"; "Texas"]; total_km2 := 833394 |} = true ∧
  passesFilter ["Kansas"]
    {| states := ["Arkansas"; "Texas"]; total_km2 := 833394 |} = false.
Proof.
  split; [|by vm_compute].
  apply (proj1 (proj2 (proj2 (proj2
           (search_filter_of_earlier_revision [] "")))) "Kansas").
  left.
Defined.

(* ===================================================================== *)
(** ** What the rows of the list are                                      *)
(* ===================================================================== *)

Lemma elem_of_renderedRows cs st r :
  r ∈ renderedRows st cs →
  ∃ c, cs !! row_index r = Some c ∧
       r = createComboItem (selectedComboIndex st) c (row_index r) ∧
       ∀ s, s ∈ selectedStates st → s ∈ states c.
Proof.
  unfold renderedRows. intros ([i c] & -> & Hic)%list_elem_of_fmap. simpl.
  apply elem_of_take in Hic as (k & Hk%list_elem_of_lookup_2 & _).
  apply elem_of_filterCombinations in Hk as [Hi Hall]. eauto.
Qed.

(** When the list pane shows the combinations, every row is a loaded
    combination that contains every filter state: it carries the position of
    that combination in the data, its states, their number and its area, and
    it is marked exactly when that position is the selected one; no two rows
    carry the same position; when at most 500 combinations pass the filter,
    each of them has its row.  A click on a row therefore selects a
    combination of the data: in a page with its layers, [selectCombination]
    on the position of a row runs to its end. *)
Theorem rows_are_matching_combinations :
  ∀ (cs : list Combo) (st : Viewer),
    listShows cs st →
    (∀ r, r ∈ combinationsList (page st) →
       ∃ c, cs !! row_index r = Some c ∧
            r = createComboItem (selectedComboIndex st) c (row_index r) ∧
            ∀ s, s ∈ selectedStates st → s ∈ states c) ∧
    NoDup (row_index <$> combinationsList (page st)) ∧
    ((length (filterCombinations (selectedStates st) cs) ≤ 500)%nat →
       ∀ i c, cs !! i = Some c → (∀ s, s ∈ selectedStates st → s ∈ states c) →
              createComboItem (selectedComboIndex st) c i ∈ combinationsList (page st)) ∧
    (∀ data ls r,
       combinationsData st = Some data → combinations data = Some cs →
       statesLayer st = Some ls → r ∈ combinationsList (page st) →
       outcome (selectCombination (row_index r)) st = Normal tt).
Proof.
  intros cs st [Hrows Hhead]. rewrite Hrows. split_and!.
  - intros r. apply elem_of_renderedRows.
  - unfold renderedRows. rewrite row_index_rendered. apply shown_NoDup.
  - intros Hlen i c Hi Hall. unfold renderedRows. rewrite take_ge by done.
    apply list_elem_of_fmap. exists (i, c). split; [done|].
    by apply elem_of_filterCombinations.
  - intros data ls r Hdata Hcs Hls Hr.
    apply elem_of_renderedRows in Hr as (c & Hc & _).
    destruct (selectCombination_run st ls data cs (row_index r) c Hls Hdata Hcs Hc)
      as (st' & Hrun & _).
    unfold outcome. by rewrite Hrun.
Qed.

Lemma rows_are_matching_combinations_witness :
  NoDup (row_index <$> combinationsList (page (run [Click 0] sampleViewer))) ∧
  row_states <$> combinationsList (page (run [Click 0] sampleViewer)) =
    [["Texas"; "Oklahoma"; "New Mexico"]; ["Texas"; "New Mexico"]].
Proof.
  split; [|by vm_compute].
  apply (rows_are_matching_combinations (default [] (combinations sampleData))
           (run [Click 0] sampleViewer)).
  split; by vm_compute.
Defined.

(* ===================================================================== *)
(** ** The names of the typeahead and the layers                          *)
(* ===================================================================== *)


(* ===================================================================== *)
(** ** Hovering without a selection                                       *)
(* ===================================================================== *)

(** With no combination selected, a mouse-over gives the layer the hover
    style (its opacity is kept) and a mouse-out gives it the default style,
    whatever style it had: after the pointer has passed over a state of the
    filter, that state has the default style, not the filter highlight.  No
    other layer changes, and nothing but the layers and their paint order. *)
Theorem hover_without_selection :
  ∀ (st : Viewer) (ls : list Layer) (t : nat) (l : Layer),
    statesLayer st = Some ls → ls !! t = Some l → selectedComboIndex st = None →
    outcome (handleStateHover t) st = Normal tt ∧
    outcome (handleStateOut t) st = Normal tt ∧
    statesLayer (exec (handleStateHover t) st) =
      Some (<[t := {| feature := feature l;
                      options := mergeStyle hoverStyle (options l) |}]> ls) ∧
    statesLayer (exec (handleStateOut t) st) = Some (<[t := newLayer (feature l)]> ls) ∧
    statesLayer (exec (handleStateOut t) (exec (handleStateHover t) st)) =
      Some (<[t := newLayer (feature l)]> ls) ∧
    offMap (exec (handleStateHover t) st) = offMap st ∧
    offMap (exec (handleStateOut t) st) = offMap st.
Proof.
  intros st ls t l Hls Ht Hidx.
  assert (Halter : ∀ (f : Layer → Layer), alter f t ls = <[t := f l]> ls).
  { intros f. apply list_eq. intros k. destruct (decide (k = t)) as [->|Hk].
    - rewrite list_lookup_alter_eq, Ht.
      by rewrite list_lookup_insert_eq by (by eapply lookup_lt_Some).
    - by rewrite list_lookup_alter_ne, list_lookup_insert_ne by done. }
  assert (Hover : ∀ st1, statesLayer st1 = Some ls → selectedComboIndex st1 = None →
    ∃ st', handleStateHover t st1 = (Normal tt, st') ∧
      statesLayer st' = Some (alter (setStyle hoverStyle) t ls) ∧
      selectedComboIndex st' = None ∧ offMap st' = offMap st1).
  { intros st1 Hls1 Hidx1.
    unfold handleStateHover, layerAt, inSelectedCombination.
    js_run. rewrite Hls1. js_run. rewrite Ht. js_run. rewrite Hidx1. js_run.
    eexists. split; [reflexivity|]. simpl. by rewrite Hls1. }
  assert (Hout : ∀ st1 ls1 l1, statesLayer st1 = Some ls1 → ls1 !! t = Some l1 →
    selectedComboIndex st1 = None →
    ∃ st', handleStateOut t st1 = (Normal tt, st') ∧
      statesLayer st' = Some (alter (setStyle defaultStyle) t ls1) ∧
      offMap st' = offMap st1).
  { intros st1 ls1 l1 Hls1 Hl1 Hidx1.
    unfold handleStateOut, layerAt, inSelectedCombination.
    js_run. rewrite Hls1. js_run. rewrite Hl1. js_run. rewrite Hidx1. js_run.
    eexists. split; [reflexivity|]. simpl. by rewrite Hls1. }
  destruct (Hover st Hls Hidx) as (sth & Hrunh & Hlsh & Hidxh & Hoffh).
  destruct (Hout st ls l Hls Ht Hidx) as (sto & Hruno & Hlso & Hoffo).
  destruct (Hout sth _ (setStyle hoverStyle l) Hlsh) as (stb & Hrunb & Hlsb & _);
    [by rewrite list_lookup_alter_eq, Ht | done |].
  unfold exec, outcome. rewrite Hrunh, Hruno. simpl. rewrite Hrunb. simpl.
  split_and!; try done.
  - by rewrite Hlsh, Halter.
  - by rewrite Hlso, Halter.
  - rewrite Hlsb, !Halter. f_equal. apply list_eq. intros k.
    destruct (decide (k = t)) as [->|Hk].
    + rewrite list_lookup_alter_eq, !list_lookup_insert_eq; try done.
      all: by eapply lookup_lt_Some.
    + by rewrite list_lookup_alter_ne, !list_lookup_insert_ne by done.
Qed.

Lemma hover_without_selection_witness :
  (λ l : Layer, fillColor (options l))
    <$> default [] (statesLayer (run [AddFilter "Texas"] sampleViewer)) =
    ["#4cc9f0"; "#1a4670"; "#1a4670"; "#1a4670"; "#1a4670"] ∧
  statesLayer (exec (handleStateOut 0)
                 (exec (handleStateHover 0) (run [AddFilter "Texas"] sampleViewer))) =
    statesLayer sampleViewer.
Proof.
  split; [by vm_compute|].
  destruct (hover_without_selection (run [AddFilter "Texas"] sampleViewer)
              (default [] (statesLayer (run [AddFilter "Texas"] sampleViewer))) 0
              {| feature := {| name := "Texas" |};
                 options := mergeStyle filterStyle (mergeStyle defaultStyle pathDefaults) |})
    as (_ & _ & _ & _ & H & _); [by vm_compute..|].
  etrans; [exact H|]. by vm_compute.
Defined.

(* ===================================================================== *)
(** ** Adding a state to the filter and removing it again                 *)
(* ===================================================================== *)

Lemma addStateFilter_keeps_selection s : preserves selectedComboIndex (addStateFilter s).
Proof. repeat autounfold with js. frame_by unchanged. Qed.

Lemma removeStateFilter_keeps_selection s :
  preserves selectedComboIndex (removeStateFilter s).
Proof. repeat autounfold with js. frame_by unchanged. Qed.

Lemma filter_ne_snoc (s : string) (sel : list string) :
  s ∉ sel → filter (λ x, x ≠ s) (sel ++ [s]) = sel.
Proof.
  induction sel as [|x sel IH]; intros Hs; simpl.
  - by rewrite filter_cons_False, filter_nil by naive_solver.
  - apply not_elem_of_cons in Hs as [Hx Hs].
    rewrite filter_cons_True by done. f_equal. by apply IH.
Qed.


